(** * csv-validator: schema-driven validation of CSV rows

    A shallow embedding of [csv_validator/helpers.py], [csv_validator/model.py]
    and the [CLI] workflow of [csv_validator/__main__.py], together with the
    parts of the libraries they call (pydantic's model validation, the
    [csv.DictReader] row construction, [ipaddress.IPv4Network]) that decide
    the behaviour of the program.

    Conventions.
    - A Python [str] is a [string]: a sequence of code points below 256.
    - A Python [set] of hashable values is a [gset]; its iteration order is
      not fixed by the language and is passed explicitly where it matters.
    - A [dict] whose order matters is an association list with distinct keys.
    - A function that may raise returns a [Raises] value; a function that
      mutates captured or shared state takes the state and returns the new
      one. *)

From Stdlib Require Import ZArith Lia Ascii String.
From stdpp Require Import base option list gmap sets strings.

Local Open Scope string_scope.

(** ** Exceptions *)

(** The result of a call that may raise: [Return a] or [Raise e]. *)
Inductive Raises (E A : Type) : Type :=
  | Return (a : A)
  | Raise (e : E).
Arguments Return {E A} a.
Arguments Raise {E A} e.

(** ** Python strings *)

Module Str.

Definition code (c : ascii) : nat := nat_of_ascii c.

(** [str.isspace] on one code point (Py_UNICODE_ISSPACE), below 256:
    0x09-0x0D, 0x1C-0x20, 0x85, 0xA0. *)
Definition py_isspace (c : ascii) : bool :=
  let n := code c in
  (((9 <=? n) && (n <=? 13)) || ((28 <=? n) && (n <=? 32))
   || (n =? 133) || (n =? 160))%nat.

(** Unicode [White_Space] (what Rust's [str::trim] removes), below 256:
    0x09-0x0D, 0x20, 0x85, 0xA0. *)
Definition white_space (c : ascii) : bool :=
  let n := code c in
  (((9 <=? n) && (n <=? 13)) || (n =? 32) || (n =? 133) || (n =? 160))%nat.

Section Strip.
Variable sp : ascii -> bool.

Fixpoint lstrip (s : string) : string :=
  match s with
  | EmptyString => EmptyString
  | String c s' => if sp c then lstrip s' else s
  end.

Fixpoint rstrip (s : string) : string :=
  match s with
  | EmptyString => EmptyString
  | String c s' =>
      match rstrip s' with
      | EmptyString => if sp c then EmptyString else String c EmptyString
      | r => String c r
      end
  end.

Definition strip_with (s : string) : string := rstrip (lstrip s).

(** First and last code point of a string, when it has one. *)
Definition first (s : string) : option ascii :=
  match s with
  | EmptyString => None
  | String c _ => Some c
  end.

Fixpoint last (s : string) : option ascii :=
  match s with
  | EmptyString => None
  | String c EmptyString => Some c
  | String _ s' => last s'
  end.

(** No leading and no trailing white space. *)
Definition trimmed (s : string) : Prop :=
  (forall c, first s = Some c -> sp c = false) /\
  (forall c, last s = Some c -> sp c = false).
End Strip.

(** [s.strip()] *)
Definition strip : string -> string := strip_with py_isspace.

(** Rust's [str::trim], used by pydantic-core for [strip_whitespace]. *)
Definition trim : string -> string := strip_with white_space.

(** [s.split(sep)] for a one-character separator: never the empty list. *)
Fixpoint split (sep : ascii) (s : string) : list string :=
  match s with
  | EmptyString => [EmptyString]
  | String c s' =>
      if Ascii.eqb c sep then EmptyString :: split sep s'
      else match split sep s' with
           | [] => [String c EmptyString]
           | w :: ws => String c w :: ws
           end
  end.

(** [sep.join(l)] *)
Fixpoint join (sep : string) (l : list string) : string :=
  match l with
  | [] => EmptyString
  | [x] => x
  | x :: l' => x ++ sep ++ join sep l'
  end.

(** Lower-casing of one code point below 256 (Rust's [to_lowercase]):
    A-Z, and the Latin-1 capitals 0xC0-0xDE except the sign 0xD7.  On these
    code points the mapping gives one code point for one.  On others Rust's
    mapping can give more (U+0130 becomes two), so that lower-casing can
    lengthen a text that has them; the length limits of [str_schema] are
    checked before it.  No statement below relies on the length of a
    lower-cased text. *)
Definition lower_char (c : ascii) : ascii :=
  let n := code c in
  if (((65 <=? n) && (n <=? 90))
      || ((192 <=? n) && (n <=? 222) && negb (n =? 215)))%nat
  then ascii_of_nat (n + 32) else c.

Fixpoint to_lowercase (s : string) : string :=
  match s with
  | EmptyString => EmptyString
  | String c s' => String (lower_char c) (to_lowercase s')
  end.

(** [s.isascii() and s.isdigit()]: non-empty, only 0-9. *)
Definition is_digit (c : ascii) : bool :=
  ((48 <=? code c) && (code c <=? 57))%nat.

Fixpoint all_digits (s : string) : bool :=
  match s with
  | EmptyString => true
  | String c s' => is_digit c && all_digits s'
  end.

Definition isascii_isdigit (s : string) : bool :=
  match s with
  | EmptyString => false
  | _ => all_digits s
  end.

(** [int(s, 10)] on a string of decimal digits. *)
Fixpoint int_acc (acc : N) (s : string) : N :=
  match s with
  | EmptyString => acc
  | String c s' => int_acc (10 * acc + N.of_nat (code c - 48))%N s'
  end.

(** [sys.int_info.default_max_str_digits]: the most digits [int] converts. *)
Definition max_str_digits : nat := 4300.

(** [int(s, 10)] on a string of decimal digits; [None] stands for the
    [ValueError] of a string with more digits than the limit. *)
Definition int (s : string) : option N :=
  if (max_str_digits <? String.length s)%nat then None
  else Some (int_acc 0%N s).

(** Truth value of a [str]: non-empty. *)
Definition truthy (s : string) : bool :=
  match s with
  | EmptyString => false
  | _ => true
  end.

End Str.

(** ** helpers.py *)

(** *** [unique]

    [unique()] creates the set [seen] and returns the closure [nested] over
    it.  The captured set is the state threaded through every call of the
    closure. *)
Section Unique.
Context {T : Type} `{Countable T}.

(** The [ValueError] of [nested]; its message is the f-string
    [Value ?{v} is not unique], where [?] stands for the one double-quote
    character of the source. *)
Inductive NotUnique : Type :=
  | Value_is_not_unique (v : T).

(** [seen = set()] *)
Definition unique_seen : gset T := ∅.

Definition nested (v : T) (seen : gset T) : Raises NotUnique T * gset T :=
  if decide (v ∈ seen) then (Raise (Value_is_not_unique v), seen)
  else (Return v, {[v]} ∪ seen).
End Unique.
Arguments NotUnique T : clear implicits.

(** *** [coerce_splt_commas_rtn_set_strs] and [coerce_empty_str_to_none] *)

(** [set(e.strip() for e in s.split(',') if e)] *)
Definition split_strip (s : string) : list string :=
  Str.strip <$> filter (λ e, Str.truthy e = true) (Str.split "," s).

Definition coerce_splt_commas_rtn_set_strs (s : string) : option (gset string) :=
  if Str.truthy s then Some (list_to_set (split_strip s)) else None.

Definition coerce_empty_str_to_none (s : string) : option string :=
  if Str.truthy s then Some s else None.

(** *** [validate_ipv4_address]

    [ipaddress.IPv4Network(ip, strict=False)] of the Python standard library,
    for a [str] argument. *)
Module ipaddress.

Inductive OctetError : Type :=
  | Empty_octet_not_permitted
  | Only_decimal_digits_permitted (octet_str : string)
  | At_most_3_characters_permitted (octet_str : string)
  | Leading_zeros_are_not_permitted (octet_str : string)
  | Octet_gt_255_not_permitted (octet_int : N)
  | Exceeds_the_limit_for_integer_string_conversion.  (* the ValueError of int *)

(** [AddressValueError] and [NetmaskValueError], both [ValueError]s. *)
Inductive Error : Type :=
  | Only_one_slash_permitted (address : string)
  | Address_cannot_be_empty
  | Expected_4_octets (ip_str : string)
  | In_octet (exc : OctetError) (ip_str : string)
  | Is_not_a_valid_netmask (netmask_str : string).

Definition _max_prefixlen : Z := 32.
Definition _ALL_ONES : Z := 2 ^ 32 - 1.

Definition _parse_octet (octet_str : string) : Raises OctetError N :=
  if negb (Str.truthy octet_str) then Raise Empty_octet_not_permitted
  else if negb (Str.isascii_isdigit octet_str)
  then Raise (Only_decimal_digits_permitted octet_str)
  else if (3 <? String.length octet_str)%nat
  then Raise (At_most_3_characters_permitted octet_str)
  else if negb (String.eqb octet_str "0")
          && (match octet_str with String "0" _ => true | _ => false end)
  then Raise (Leading_zeros_are_not_permitted octet_str)
  else match Str.int octet_str with
       | None => Raise Exceeds_the_limit_for_integer_string_conversion
       | Some octet_int =>
           if (255 <? octet_int)%N then Raise (Octet_gt_255_not_permitted octet_int)
           else Return octet_int
       end.

(** [int.from_bytes(map(cls._parse_octet, octets), 'big')]: the octets are
    parsed from left to right and the first failure is raised. *)
Fixpoint from_octets (acc : Z) (octets : list string) : Raises OctetError Z :=
  match octets with
  | [] => Return acc
  | o :: octets' =>
      match _parse_octet o with
      | Raise e => Raise e
      | Return n => from_octets (256 * acc + Z.of_N n)%Z octets'
      end
  end.

Definition _ip_int_from_string (ip_str : string) : Raises Error Z :=
  if negb (Str.truthy ip_str) then Raise Address_cannot_be_empty
  else let octets := Str.split "." ip_str in
       if negb (length octets =? 4)%nat then Raise (Expected_4_octets ip_str)
       else match from_octets 0 octets with
            | Raise exc => Raise (In_octet exc ip_str)
            | Return n => Return n
            end.

(** [int.bit_length] of a non-negative integer. *)
Definition bit_length (z : Z) : Z :=
  if (z =? 0)%Z then 0%Z else (Z.log2 z + 1)%Z.

Definition _count_righthand_zero_bits (number bits : Z) : Z :=
  if (number =? 0)%Z then bits
  else Z.min bits (bit_length (Z.land (Z.lnot number) (number - 1))).

(** [None] stands for the [ValueError] (netmask pattern mixes zeroes and
    ones), which every caller catches. *)
Definition _prefix_from_ip_int (ip_int : Z) : option Z :=
  let trailing_zeroes := _count_righthand_zero_bits ip_int _max_prefixlen in
  let prefixlen := (_max_prefixlen - trailing_zeroes)%Z in
  let leading_ones := Z.shiftr ip_int trailing_zeroes in
  let all_ones := (Z.shiftl 1 prefixlen - 1)%Z in
  if negb (leading_ones =? all_ones)%Z then None else Some prefixlen.

Definition _prefix_from_prefix_string (prefixlen_str : string) : Raises Error Z :=
  if negb (Str.isascii_isdigit prefixlen_str)
  then Raise (Is_not_a_valid_netmask prefixlen_str)
  else match Str.int prefixlen_str with
       | None => Raise (Is_not_a_valid_netmask prefixlen_str)
       | Some n =>
           let prefixlen := Z.of_N n in
           if negb ((0 <=? prefixlen)%Z && (prefixlen <=? _max_prefixlen)%Z)
           then Raise (Is_not_a_valid_netmask prefixlen_str)
           else Return prefixlen
       end.

Definition _prefix_from_ip_string (ip_str : string) : Raises Error Z :=
  match _ip_int_from_string ip_str with
  | Raise _ => Raise (Is_not_a_valid_netmask ip_str)
  | Return ip_int =>
      match _prefix_from_ip_int ip_int with
      | Some p => Return p
      | None =>
          match _prefix_from_ip_int (Z.lxor ip_int _ALL_ONES) with
          | Some p => Return p
          | None => Raise (Is_not_a_valid_netmask ip_str)
          end
      end
  end.

Definition _ip_int_from_prefix (prefixlen : Z) : Z :=
  Z.lxor _ALL_ONES (Z.shiftr _ALL_ONES prefixlen).

(** [_make_netmask] for the mask of an address string: the text after the
    slash, or the integer 32 when there is no slash. *)
Definition _make_netmask (arg : option string) : Raises Error (Z * Z) :=
  let prefixlen :=
    match arg with
    | None => Return _max_prefixlen
    | Some mask =>
        match _prefix_from_prefix_string mask with
        | Return p => Return p
        | Raise _ => _prefix_from_ip_string mask
        end
    end in
  match prefixlen with
  | Raise e => Raise e
  | Return p => Return (_ip_int_from_prefix p, p)
  end.

Definition _split_addr_prefix (address : string)
  : Raises Error (string * option string) :=
  match Str.split "/" address with
  | [addr] => Return (addr, None)
  | [addr; mask] => Return (addr, Some mask)
  | _ => Raise (Only_one_slash_permitted address)
  end.

Record Network : Type := {
  network_address : Z;
  netmask : Z;
  _prefixlen : Z
}.

Definition IPv4Network (address : string) (strict : bool)
  : Raises (option Error) Network :=
  match _split_addr_prefix address with
  | Raise e => Raise (Some e)
  | Return (addr, mask) =>
      match _ip_int_from_string addr with
      | Raise e => Raise (Some e)
      | Return packed =>
          match _make_netmask mask with
          | Raise e => Raise (Some e)
          | Return (nm, p) =>
              if negb (Z.land packed nm =? packed)%Z && strict
              then Raise None (* ValueError: has host bits set *)
              else Return {| network_address := Z.land packed nm;
                             netmask := nm; _prefixlen := p |}
          end
      end
  end.

End ipaddress.

(** [ValueError(f"Invalid CIDR value: {ip}. Error: {e}")] *)
Inductive InvalidCIDR : Type :=
  | Invalid_CIDR_value (ip : string) (e : option ipaddress.Error).

Definition validate_ipv4_address (ip : string) (is_mandatory : bool)
  : Raises InvalidCIDR string :=
  if negb (Str.truthy ip) && negb is_mandatory then Return ip
  else match ipaddress.IPv4Network ip false with
       | Raise e => Raise (Invalid_CIDR_value ip e)
       | Return _ => Return ip
       end.

Definition validate_cidr (ip : string) : Raises InvalidCIDR string :=
  validate_ipv4_address ip true.

(** ** Dictionaries and CSV rows *)

(** A cell of a row: a [str], or [None] (the reader's [restval]). *)
Definition Cell : Type := option string.

(** A [dict] with [str] keys, in insertion order. *)
Definition Dict : Type := list (string * Cell).

Fixpoint dict_get {V : Type} (k : string) (d : list (string * V)) : option V :=
  match d with
  | [] => None
  | (k', v) :: d' => if String.eqb k k' then Some v else dict_get k d'
  end.

Definition keys {V : Type} (d : list (string * V)) : list string := d.*1.

(** [k in d] *)
Definition has_key {V : Type} (k : string) (d : list (string * V)) : bool :=
  bool_decide (k ∈ keys d).

(** [d[k] = v]: an existing key keeps its position. *)
Fixpoint dict_set {V : Type} (k : string) (v : V) (d : list (string * V))
  : list (string * V) :=
  match d with
  | [] => [(k, v)]
  | (k', v') :: d' =>
      if String.eqb k k' then (k', v) :: d' else (k', v') :: dict_set k v d'
  end.

Module csv.

(** A row as [DictReader.__next__] returns it: the cells under the field
    names, and under the key [None] (the [restkey]) the list of the cells
    a line has beyond its field names. *)
Record Row : Type := {
  items : Dict;
  restkey : option (list string)
}.

(** [dict(zip(fieldnames, row))] *)
Fixpoint dict_zip (fieldnames row : list string) (d : Dict) : Dict :=
  match fieldnames, row with
  | k :: fieldnames', c :: row' => dict_zip fieldnames' row' (dict_set k (Some c) d)
  | _, _ => d
  end.

(** The body of [DictReader.__next__] after a non-empty line was read. *)
Definition DictReader_next (fieldnames row : list string) : Row :=
  let d := dict_zip fieldnames row [] in
  let lf := length fieldnames in
  let lr := length row in
  if (lf <? lr)%nat then {| items := d; restkey := Some (drop lf row) |}
  else {| items := foldl (λ d key, dict_set key None d) d (drop lr fieldnames);
          restkey := None |}.

End csv.

(** ** pydantic: validation of a model's fields *)

Module pydantic.

Inductive Value : Type :=
  | VStr (s : string)
  | VNone
  | VSet (X : gset string).

(** The [ValueError]s the validators of the repository raise. *)
Inductive ValueError : Type :=
  | Not_unique (e : NotUnique string)
  | Not_a_CIDR (e : InvalidCIDR).

(** The errors of pydantic-core that reach the program, with their
    messages ([pydantic_err['msg']]). *)
Inductive ErrorType : Type :=
  | string_type                          (* Input should be a valid string *)
  | string_too_short (min_length : nat)  (* String should have at least .. *)
  | string_too_long (max_length : nat)   (* String should have at most .. *)
  | value_error (error : ValueError)     (* Value error, {error} *)
  | missing                              (* Field required *)
  | extra_forbidden.                     (* Extra inputs are not permitted *)

(** [pydantic_err['input']]: the offending cell, or for a missing field
    the whole input. *)
Inductive ErrorInput : Type :=
  | InputCell (c : Cell)
  | InputData (data : Dict).

(** An error of one validator, before the model gives it a location. *)
Definition LineError : Type := ErrorType * ErrorInput.

(** One entry of [ValidationError.errors()]; [loc] is [loc[0]]. *)
Record ErrorDetails : Type := {
  loc : string;
  msg : ErrorType;
  input : ErrorInput
}.

Definition with_outer_location (name : string) (e : LineError) : ErrorDetails :=
  {| loc := name; msg := e.1; input := e.2 |}.

(** [pydantic.StringConstraints] *)
Record StringConstraints : Type := {
  strict : bool;
  strip_whitespace : bool;
  to_lower : bool;
  min_length : option nat;
  max_length : option nat
}.

(** The string validator of pydantic-core on a cell: a [str] is accepted
    in strict and in lax mode alike, [None] in neither.  White space is
    trimmed first, the length limits are checked on the trimmed string,
    and the result is lower-cased last. *)
Definition str_schema (c : StringConstraints) (input : Cell)
  : Raises ErrorType string :=
  match input with
  | None => Raise string_type
  | Some s =>
      let s := if strip_whitespace c then Str.trim s else s in
      let str_len := String.length s in
      if match min_length c with
         | Some n => (str_len <? n)%nat
         | None => false
         end
      then Raise (string_too_short (default 0%nat (min_length c)))
      else if match max_length c with
              | Some n => (n <? str_len)%nat
              | None => false
              end
      then Raise (string_too_long (default 0%nat (max_length c)))
      else Return (if to_lower c then Str.to_lowercase s else s)
  end.

Inductive ExtraBehavior : Type := forbid | ignore.

(** The iteration order of a set, which a serializer that walks a set
    depends on. *)
Definition SetOrder : Type := gset string -> list string.

Section Model.
(** The state captured by the closures among the validators. *)
Context {St : Type}.

Definition FieldValidator : Type :=
  Cell -> St -> Raises (list LineError) Value * St.

Record FieldInfo : Type := {
  is_required : bool;
  default_value : Value;
  validator : FieldValidator;
  serializer : option (SetOrder -> Value -> Value)
}.

Record Model : Type := {
  model_fields : list (string * FieldInfo);
  extra : ExtraBehavior
}.

(** A validated model object: its fields, in declaration order. *)
Definition Instance : Type := list (string * Value).

(** The loop over the fields: every field is validated, whatever the
    outcome of the fields before it, and the errors are collected. *)
Fixpoint validate_fields (fields : list (string * FieldInfo)) (data : Dict)
  (st : St) : list ErrorDetails * Instance * St :=
  match fields with
  | [] => ([], [], st)
  | (name, field) :: fields' =>
      match dict_get name data with
      | Some value =>
          let '(r, st1) := validator field value st in
          let '(errors, model_dict, st2) := validate_fields fields' data st1 in
          match r with
          | Return v => (errors, (name, v) :: model_dict, st2)
          | Raise line_errors =>
              (((with_outer_location name <$> line_errors) ++ errors)%list,
               model_dict, st2)
          end
      | None =>
          let '(errors, model_dict, st2) := validate_fields fields' data st in
          if is_required field
          then ({| loc := name; msg := missing; input := InputData data |}
                  :: errors, model_dict, st2)
          else (errors, (name, default_value field) :: model_dict, st2)
      end
  end.

(** The keys of the input that no field used. *)
Definition extra_items (m : Model) (data : Dict) : Dict :=
  filter (λ kv, negb (has_key kv.1 (model_fields m)) = true) data.

Definition validate_extras (m : Model) (data : Dict) : list ErrorDetails :=
  match extra m with
  | forbid =>
      (λ kv, {| loc := kv.1; msg := extra_forbidden; input := InputCell kv.2 |})
        <$> extra_items m data
  | ignore => []
  end.

(** [validate_python] of a model on a dict: the errors of the fields in
    field order, then those of the extra keys in input order. *)
Definition validate_python (m : Model) (data : Dict) (st : St)
  : Raises (list ErrorDetails) Instance * St :=
  let '(errors, model_dict, st') := validate_fields (model_fields m) data st in
  match (errors ++ validate_extras m data)%list with
  | [] => (Return model_dict, st')
  | errors => (Raise errors, st')
  end.

(** [m.model_dump()] *)
Definition model_dump (order : SetOrder) (m : Model) (obj : Instance)
  : Instance :=
  (λ '(name, v),
     match dict_get name (model_fields m) with
     | Some {| serializer := Some f |} => (name, f order v)
     | _ => (name, v)
     end) <$> obj.

End Model.
Arguments FieldValidator St : clear implicits.
Arguments FieldInfo St : clear implicits.
Arguments Model St : clear implicits.

End pydantic.
Import pydantic.

(** ** Exceptions of the program *)

Inductive Exception : Type :=
  | ValidationError (errors : list ErrorDetails)
  | TypeError
  | KeyError (key : string)
  | RuntimeError (message : string)
  | UnicodeDecodeError
  | csv_Error
  | OtherException (name : string).  (* any other class, by its name *)

(** The call of the model with the row unpacked into keyword arguments: a
    keyword that is not a [str] raises [TypeError] before the model sees the
    row. *)
Definition model_call {St : Type} (m : Model St) (row : csv.Row) (st : St)
  : Raises Exception Instance * St :=
  match csv.restkey row with
  | Some _ => (Raise TypeError, st)
  | None =>
      match validate_python m (csv.items row) st with
      | (Return obj, st') => (Return obj, st')
      | (Raise errors, st') => (Raise (ValidationError errors), st')
      end
  end.

(** ** model.py *)

(** A validator without captured state. *)
Definition stateless {St : Type} (f : Cell -> Raises (list LineError) Value)
  : FieldValidator St :=
  λ value st, (f value, st).

Definition of_str (value : Cell) (r : Raises ErrorType string)
  : Raises (list LineError) Value :=
  match r with
  | Return s => Return (VStr s)
  | Raise e => Raise [(e, InputCell value)]
  end.

(** [StrippedStr]: [StringConstraints(strict=True, strip_whitespace=True)] *)
Definition StrippedStr_constraints : StringConstraints :=
  {| strict := true; strip_whitespace := true; to_lower := false;
     min_length := None; max_length := None |}.

Definition StrippedStr (value : Cell) : Raises (list LineError) Value :=
  of_str value (str_schema StrippedStr_constraints value).

(** [OptionalStrippedStr]: [coerce_empty_str_to_none] runs before the
    validation of [Optional[StrippedStr]]. *)
Definition OptionalStrippedStr (value : Cell) : Raises (list LineError) Value :=
  match value ≫= coerce_empty_str_to_none with
  | None => Return VNone
  | Some s => of_str value (str_schema StrippedStr_constraints (Some s))
  end.

(** [ClusterName]: [StringConstraints(strict=True, strip_whitespace=True,
    to_lower=True, min_length=1, max_length=30)], then
    [AfterValidator(unique())]. *)
Definition ClusterName_constraints : StringConstraints :=
  {| strict := true; strip_whitespace := true; to_lower := true;
     min_length := Some 1%nat; max_length := Some 30%nat |}.

(** The set captured by the one closure that [unique()] returns when
    [model.py] is imported: the state of the [ClusterName] validator. *)
Definition Seen : Type := gset string.

Definition ClusterName : FieldValidator Seen :=
  λ value seen,
    match str_schema ClusterName_constraints value with
    | Raise e => (Raise [(e, InputCell value)], seen)
    | Return s =>
        match nested s seen with
        | (Return v, seen') => (Return (VStr v), seen')
        | (Raise e, seen') =>
            (Raise [(value_error (Not_unique e), InputCell value)], seen')
        end
    end.

(** A plain [str] field. *)
Definition plain_str (value : Cell) : Raises (list LineError) Value :=
  of_str value
    (str_schema {| strict := false; strip_whitespace := false; to_lower := false;
                   min_length := None; max_length := None |} value).

(** [ClusterTags]: the two [BeforeValidator]s run from the last to the
    first, [coerce_splt_commas_rtn_set_strs] on the cell ([None] is falsy and
    stays [None]), then [coerce_empty_str_to_none] on its result (an empty
    set is falsy and becomes [None]); [Optional[set[str]]] accepts both
    outcomes. *)
Definition ClusterTags (value : Cell) : Raises (list LineError) Value :=
  match value ≫= coerce_splt_commas_rtn_set_strs with
  | None => Return VNone
  | Some X => if decide (X = ∅) then Return VNone else Return (VSet X)
  end.

(** [BaseCluster.dump_set_of_vals] *)
Definition dump_set_of_vals (order : SetOrder) (vals : option (gset string))
  : string :=
  match vals with
  | Some X => if decide (X = ∅) then "" else Str.join "," (order X)
  | None => ""
  end.

Definition field_serializer (f : SetOrder -> option (gset string) -> string)
  : SetOrder -> Value -> Value :=
  λ order v,
    match v with
    | VSet X => VStr (f order (Some X))
    | VNone => VStr (f order None)
    | VStr _ => v
    end.

Definition required {St : Type} (v : FieldValidator St) : FieldInfo St :=
  {| is_required := true; default_value := VNone; validator := v;
     serializer := None |}.

(** A field declared with [= None]. *)
Definition optional {St : Type} (v : FieldValidator St) : FieldInfo St :=
  {| is_required := false; default_value := VNone; validator := v;
     serializer := None |}.

(** [class BaseCluster(pydantic.BaseModel, extra='forbid')] *)
Definition BaseCluster : Model Seen :=
  {| model_fields :=
       [ ("cluster_name", required ClusterName);
         ("cluster_group", required (stateless plain_str));
         ("cluster_tags",
           {| is_required := true; default_value := VNone;
              validator := stateless ClusterTags;
              serializer := Some (field_serializer dump_set_of_vals) |}) ];
     extra := forbid |}.

(** [SourceOfTruthModel] of [models/cluster_registry.py] without its two
    optional [*_sync_interval] fields, whose type carries a pattern: the
    fields of [BaseCluster], then the repository fields in the order of the
    source.  Sample input for the properties of the header. *)
Definition RegistryModel : Model Seen :=
  {| model_fields :=
       (model_fields BaseCluster ++
        [ ("platform_repository", required (stateless StrippedStr));
          ("platform_repository_revision", required (stateless StrippedStr));
          ("platform_repository_branch", optional (stateless OptionalStrippedStr));
          ("workload_repository", required (stateless StrippedStr));
          ("workload_repository_revision", required (stateless StrippedStr));
          ("workload_repository_branch", optional (stateless OptionalStrippedStr)) ])%list;
     extra := forbid |}.

(** [helpers.IP]: a [str] field with [AfterValidator(validate_ipv4_address)]. *)
Definition IP (value : Cell) : Raises (list LineError) Value :=
  match plain_str value with
  | Raise e => Raise e
  | Return (VStr s) =>
      match validate_ipv4_address s true with
      | Return ip => Return (VStr ip)
      | Raise e => Raise [(value_error (Not_a_CIDR e), InputCell value)]
      end
  | Return v => Return v
  end.

(** ** __main__.py: the [CLI] workflow *)

Inductive Level : Type := DEBUG | INFO | WARNING | ERROR.

(** [f"cluster {row['cluster_name']}"] or ['cluster name unknown'] *)
Inductive ClusterRef : Type :=
  | cluster (name : string)
  | cluster_name_unknown.

(** The messages the program logs, one constructor for each, with the
    values its f-string interpolates. *)
Inductive Message : Type :=
  | Loading_validator_module
  | Error_dynamically_loading_validator
  | Error_accessing_SourceOfTruthModel
  | SourceOfTruthModel_is_not_a_class
  | Using_source_file
  | Error_opening_source_file
  | Missing_CSV_field_names
  | Optional_field_is_not_present (name : string)
  | Required_field_is_not_present (name : string)
  | Unicode_decoding_issues
  | Using_output_file
  | Error_opening_output_file
  | Encountered_CSV_parsing_error (line_num : nat)
  | Reached_end_of_CSV (line_num : nat)
  | Processed_rows (line_num : nat)
  | Line_column_error (line_num : nat) (c : ClusterRef) (column : string)
      (error : ErrorType) (received : ErrorInput)
  | Line_TypeError (line_num : nat) (cluster_name : Cell)
  | CSV_is_invalid
  | Deleting_output
  | CSV_is_valid.

Definition LogRecord : Type := Level * Message.

(** [self._reader.fieldnames]: [None] for an empty file, the cells of the
    first line otherwise; reading them may raise [UnicodeDecodeError] or
    [csv.Error]. *)
Inductive Fieldnames : Type :=
  | fieldnames_None
  | fieldnames_list (names : list string)
  | fieldnames_UnicodeDecodeError
  | fieldnames_csv_Error.

Section CLI.
Context {St : Type}.

(** [CLI._validate_csv_fields] *)
Fixpoint missing_fields (model_fields : list (string * FieldInfo St))
  (fieldnames : list string) : bool * list LogRecord :=
  match model_fields with
  | [] => (false, [])
  | (name, field) :: model_fields' =>
      let '(validation_error, log) := missing_fields model_fields' fieldnames in
      if bool_decide (name ∉ fieldnames) then
        if negb (is_required field)
        then (validation_error, (WARNING, Optional_field_is_not_present name) :: log)
        else (true, (ERROR, Required_field_is_not_present name) :: log)
      else (validation_error, log)
  end.

Definition _validate_csv_fields (model : Model St) (fieldnames : Fieldnames)
  : Raises Exception bool * list LogRecord :=
  match fieldnames with
  | fieldnames_UnicodeDecodeError =>
      (Raise (RuntimeError "unicode decode error"),
       [(ERROR, Unicode_decoding_issues)])
  | fieldnames_csv_Error =>
      (* only UnicodeDecodeError is caught around the header *)
      (Raise csv_Error, [])
  | fieldnames_None =>
      (Raise (RuntimeError "missing CSV field names"),
       [(ERROR, Missing_CSV_field_names)])
  | fieldnames_list [] =>
      (Raise (RuntimeError "missing CSV field names"),
       [(ERROR, Missing_CSV_field_names)])
  | fieldnames_list names =>
      let '(validation_error, log) := missing_fields (model_fields model) names in
      (Return validation_error, log)
  end.

(** [row.get('cluster_name')] decides how the row is named in the log. *)
Definition cluster_ref (row : csv.Row) : ClusterRef :=
  match dict_get "cluster_name" (csv.items row) with
  | Some (Some name) => if Str.truthy name then cluster name else cluster_name_unknown
  | _ => cluster_name_unknown
  end.

(** [CLI._validate_csv_row] *)
Definition _validate_csv_row (model : Model St) (line_num : nat)
  (row : csv.Row) (st : St)
  : Raises Exception (option Instance * bool) * list LogRecord * St :=
  match model_call model row st with
  | (Return clus, st') => (Return (Some clus, false), [], st')
  | (Raise (ValidationError errors), st') =>
      (Return (None, true),
       (λ pydantic_err,
          (ERROR, Line_column_error line_num (cluster_ref row)
                    (loc pydantic_err) (msg pydantic_err) (input pydantic_err)))
         <$> errors,
       st')
  | (Raise TypeError, st') =>
      (* row['cluster_name'] is evaluated while the message is built *)
      match dict_get "cluster_name" (csv.items row) with
      | Some name => (Return (None, true), [(ERROR, Line_TypeError line_num name)], st')
      | None => (Raise (KeyError "cluster_name"), [], st')
      end
  | (Raise e, st') => (Raise e, [], st')
  end.

(** What [next(self._reader)] gives: a row, [csv.Error], or the
    [UnicodeDecodeError] of a line that does not decode. *)
Inductive Next : Type :=
  | next_row (row : csv.Row)
  | next_csv_Error
  | next_UnicodeDecodeError.

(** The body of [while True] in [CLI.run], over the lines the reader
    still has, each with the [line_num] the reader shows after it; at the
    end of the list the reader raises [StopIteration].  The loop catches
    [csv.Error] and [StopIteration] only, so that a [UnicodeDecodeError]
    leaves it.  The result is the error flag, the log, the rows written and
    the state. *)
Fixpoint row_loop (order : SetOrder) (model : Model St) (writer : bool)
  (end_line_num : nat) (lines : list (nat * Next)) (error : bool) (st : St)
  : Raises Exception bool * list LogRecord * list Instance * St :=
  match lines with
  | [] => (Return error, [(DEBUG, Reached_end_of_CSV end_line_num)], [], st)
  | (line_num, next_csv_Error) :: _ =>
      (Return true, [(ERROR, Encountered_CSV_parsing_error line_num)], [], st)
  | (line_num, next_UnicodeDecodeError) :: _ =>
      (Raise UnicodeDecodeError, [], [], st)
  | (line_num, next_row row) :: lines' =>
      let progress :=
        if (line_num mod 100 =? 0)%nat then [(INFO, Processed_rows line_num)]
        else [] in
      match _validate_csv_row model line_num row st with
      | (Raise e, log, st1) => (Raise e, (progress ++ log)%list, [], st1)
      | (Return (clus, row_error), log, st1) =>
          let '(r, log', out, st2) :=
            row_loop order model writer end_line_num lines'
              (if row_error then true else error) st1 in
          let written :=
            match clus with
            | Some obj =>
                if negb row_error && writer then [model_dump order model obj]
                else []
            | None => []
            end in
          (r, (progress ++ log ++ log')%list, (written ++ out)%list, st2)
      end
  end.

(** What loading the validator module comes to: there is none, it gives a
    model, it is not found, it has no [SourceOfTruthModel], that is no
    class, or the module raises while it is loaded an exception that is
    not [ModuleNotFoundError] ([SyntaxError], [NameError], ...). *)
Inductive Loaded : Type :=
  | no_validator_module
  | loaded_model (model : Model St)
  | module_not_found
  | no_SourceOfTruthModel
  | not_a_class
  | module_raises (e : Exception).

Definition _load_model_dynamic (l : Loaded)
  : Raises Exception (option (Model St)) * list LogRecord :=
  match l with
  | no_validator_module => (Return None, [])
  | loaded_model model => (Return (Some model), [(DEBUG, Loading_validator_module)])
  | module_not_found =>
      (Raise (RuntimeError "error loading module"),
       [(DEBUG, Loading_validator_module);
        (ERROR, Error_dynamically_loading_validator)])
  | no_SourceOfTruthModel =>
      (Raise (RuntimeError "no attribute 'SourceOfTruthModel'"),
       [(DEBUG, Loading_validator_module);
        (ERROR, Error_accessing_SourceOfTruthModel)])
  | not_a_class =>
      (Raise (RuntimeError "SourceOfTruthModel is not a class"),
       [(DEBUG, Loading_validator_module);
        (ERROR, SourceOfTruthModel_is_not_a_class)])
  | module_raises (RuntimeError message) =>
      (* caught around get_validator_module, logged and raised again *)
      (Raise (RuntimeError message),
       [(DEBUG, Loading_validator_module);
        (ERROR, Error_dynamically_loading_validator)])
  | module_raises e =>
      (Raise e, [(DEBUG, Loading_validator_module)])
  end.

(** The source file as the reader presents it. *)
Record Reader : Type := {
  fieldnames : Fieldnames;
  lines : list (nat * Next);
  end_line_num : nat
}.

(** What a run of the program is given: the validator module, the source
    ([None] when it cannot be opened) and the output argument ([None] when
    absent, otherwise whether the file can be opened for writing). *)
Record Invocation : Type := {
  validator_module : Loaded;
  source : option Reader;
  output : option bool
}.

(** What a run leaves behind: the exit code (or the exception that
    escaped), the log, the rows of the output file if there is one at the
    end, and the state of the validators. *)
Record Outcome : Type := {
  exit_code : Raises Exception Z;
  log : list LogRecord;
  output_file : option (list Instance);
  state : St
}.

(** [CLI.run]; [builtin] is the model [run] falls back on.  Around the
    loading of the model and around the header [run] catches
    [RuntimeError] only: another exception leaves it. *)
Definition run (order : SetOrder) (builtin : Model St) (inv : Invocation)
  (st : St) : Outcome :=
  match _load_model_dynamic (validator_module inv) with
  | (Raise (RuntimeError _), log0) =>
      {| exit_code := Return 1%Z; log := log0; output_file := None; state := st |}
  | (Raise e, log0) =>
      {| exit_code := Raise e; log := log0; output_file := None; state := st |}
  | (Return model, log0) =>
      let _model := default builtin model in
      let log1 := (log0 ++ [(DEBUG, Using_source_file)])%list in
      match source inv with
      | None =>
          {| exit_code := Return 1%Z;
             log := (log1 ++ [(ERROR, Error_opening_source_file)])%list;
             output_file := None; state := st |}
      | Some reader =>
          match _validate_csv_fields _model (fieldnames reader) with
          | (Raise (RuntimeError _), log2) =>
              {| exit_code := Return 1%Z; log := (log1 ++ log2)%list;
                 output_file := None; state := st |}
          | (Raise e, log2) =>
              {| exit_code := Raise e; log := (log1 ++ log2)%list;
                 output_file := None; state := st |}
          | (Return error, log2) =>
              match output inv with
              | Some false =>
                  {| exit_code := Return 1%Z;
                     log := (log1 ++ log2 ++
                             [(DEBUG, Using_output_file);
                              (ERROR, Error_opening_output_file)])%list;
                     output_file := None; state := st |}
              | out =>
                  let writer := bool_decide (out = Some true) in
                  let log3 := if writer then [(DEBUG, Using_output_file)] else [] in
                  match row_loop order _model writer (end_line_num reader)
                          (lines reader) error st with
                  | (Raise e, log4, rows, st') =>
                      {| exit_code := Raise e;
                         log := (log1 ++ log2 ++ log3 ++ log4)%list;
                         output_file := if writer then Some rows else None;
                         state := st' |}
                  | (Return true, log4, rows, st') =>
                      {| exit_code := Return (-1)%Z;
                         log := (log1 ++ log2 ++ log3 ++ log4 ++
                                 (INFO, CSV_is_invalid) ::
                                 (if writer then [(INFO, Deleting_output)] else []))%list;
                         output_file := None; state := st' |}
                  | (Return false, log4, rows, st') =>
                      {| exit_code := Return 0%Z;
                         log := (log1 ++ log2 ++ log3 ++ log4 ++
                                 [(INFO, CSV_is_valid)])%list;
                         output_file := if writer then Some rows else None;
                         state := st' |}
                  end
              end
          end
      end
  end.

End CLI.
Arguments Loaded St : clear implicits.
Arguments Invocation St : clear implicits.
Arguments Outcome St : clear implicits.



(** ** __main__.py: [setup_logger] *)

(** [logging]: the numeric value of a level. *)
Definition levelno (l : Level) : Z :=
  match l with
  | DEBUG => 10
  | INFO => 20
  | WARNING => 30
  | ERROR => 40
  end.

(** [setup_logger]: the level the root logger is set to. *)
Definition setup_logger (verbosity : Z) : Level :=
  if (verbosity =? 1)%Z then INFO
  else if (2 <=? verbosity)%Z then DEBUG
  else WARNING.

(** [Logger.isEnabledFor]: a record is handled when its level is not below
    the level of the logger. *)
Definition isEnabledFor (logger : Level) (l : Level) : bool :=
  (levelno logger <=? levelno l)%Z.

(** * Observations

    What the properties below read off a row, a log and a run. *)

(** The two [IP] fields of [models/example_model.py], as a model of their
    own. *)
Definition IPFields : Model Seen :=
  {| model_fields := [ ("ip", required (stateless IP));
                       ("network", required (stateless IP)) ];
     extra := forbid |}.

(** The levels can be told apart. *)
#[global] Instance Level_eq_dec : EqDecision Level.
Proof. solve_decision. Defined.

(** The column a log record is about, for the records of pydantic errors. *)
Definition column_of (r : LogRecord) : option string :=
  match r.2 with
  | Line_column_error _ _ column _ _ => Some column
  | _ => None
  end.

(** What one field reports about the input when it is validated on its
    own, in the state [st]: the errors of its validator on the cell under
    its name, or [missing] when the input has no such key and the field is
    required. *)
Definition field_failure {St : Type} (data : Dict) (st : St)
  (f : string * FieldInfo St) : list LineError :=
  match dict_get f.1 data with
  | Some value =>
      match (validator f.2 value st).1 with
      | Raise line_errors => line_errors
      | Return _ => []
      end
  | None => if is_required f.2 then [(missing, InputData data)] else []
  end.




(** The record [_validate_csv_row] logs for one pydantic error. *)
Definition error_record (line_num : nat) (row : csv.Row) (e : ErrorDetails)
  : LogRecord :=
  (ERROR, Line_column_error line_num (cluster_ref row) (loc e) (msg e) (input e)).

(** The value a row brings to the uniqueness check: the [cluster_name] of a
    row without surplus cells, stripped and lower-cased, when it is a string
    of 1 to 30 characters after stripping. *)
Definition unique_key (row : csv.Row) : option string :=
  match csv.restkey row, dict_get "cluster_name" (csv.items row) with
  | None, Some value =>
      match str_schema ClusterName_constraints value with
      | Return v => Some v
      | Raise _ => None
      end
  | _, _ => None
  end.

(** The line a log record is about. *)
Definition line_of (r : LogRecord) : option nat :=
  match r.2 with
  | Line_column_error line_num _ _ _ _ => Some line_num
  | Line_TypeError line_num _ => Some line_num
  | _ => None
  end.

(** The records of the error of [nested]. *)
Definition is_not_unique (r : LogRecord) : bool :=
  match r.2 with
  | Line_column_error _ _ _ (value_error (Not_unique _)) _ => true
  | _ => false
  end.

(** A row on which [_validate_csv_row] does not raise. *)
Definition no_raise (row : csv.Row) : Prop :=
  csv.restkey row = None \/ is_Some (dict_get "cluster_name" (csv.items row)).

(** How often a value is met again: the number of values of the list that
    are in [seen] or earlier in the list. *)
Fixpoint repeats (seen : gset string) (vs : list string) : nat :=
  match vs with
  | [] => 0
  | v :: vs' => (if decide (v ∈ seen) then 1 else 0) + repeats ({[v]} ∪ seen) vs'
  end.

(** How often a value is in a list. *)
Definition occurrences (v : string) (vs : list string) : nat :=
  length (filter (λ x, x = v) vs).

(** The record of the error of [nested] on the [cluster_name] of a row. *)
Definition not_unique_record (line_num : nat) (row : csv.Row) (v : string)
  (value : Cell) : LogRecord :=
  (ERROR, Line_column_error line_num (cluster_ref row) "cluster_name"
            (value_error (Not_unique (Value_is_not_unique v))) (InputCell value)).

(** A source whose lines all parse: the rows, each with its line number. *)
Definition lines_of (rows : list (nat * csv.Row)) : list (nat * Next) :=
  (λ nr, (nr.1, next_row nr.2)) <$> rows.

(** The values the rows bring to the uniqueness check, in row order. *)
Definition values_of (rows : list (nat * csv.Row)) : list string :=
  omap (λ nr, unique_key nr.2) rows.

(** A record that is about no line and not about uniqueness. *)
Definition quiet (r : LogRecord) : Prop :=
  line_of r = None /\ is_not_unique r = false.

(** Example data: the header of the built-in model, and lines under it. *)
Definition base_names : list string :=
  ["cluster_name"; "cluster_group"; "cluster_tags"].

Definition three_rows : list (nat * csv.Row) :=
  [ (2, csv.DictReader_next base_names ["edge-1"; "us"; "lab"]);
    (3, csv.DictReader_next base_names [" EDGE-1 "; "us"; ""]);
    (4, csv.DictReader_next base_names ["edge-2"; "us"; ""]) ].

Definition blank_rows : list (nat * csv.Row) :=
  [ (2, csv.DictReader_next base_names ["edge"; "us"; ""]);
    (3, csv.DictReader_next base_names ["EDGE"; "us"; ""]);
    (4, csv.DictReader_next base_names [""; "us"; ""]);
    (5, csv.DictReader_next base_names [""; "us"; ""]);
    (6, csv.DictReader_next base_names [""; "us"; ""]) ].

(** A run of the built-in model over rows, without an output file. *)
Definition session (rows : list (nat * csv.Row)) : Invocation Seen :=
  {| validator_module := no_validator_module;
     source := Some {| fieldnames := fieldnames_list base_names;
                       lines := lines_of rows;
                       end_line_num := 1 + length rows |};
     output := None |}.

(** [c in s] for one code point. *)
Fixpoint contains (c : ascii) (s : string) : bool :=
  match s with
  | EmptyString => false
  | String c' s' => Ascii.eqb c' c || contains c s'
  end.

(** The records a logger set up for a verbosity lets through. *)
Definition emitted (verbosity : Z) (log : list LogRecord) : list LogRecord :=
  filter (λ r, isEnabledFor (setup_logger verbosity) r.1 = true) log.

(** * Properties *)

(** A closed, decidable fact, settled by evaluation. *)
Ltac by_evaluation := apply (bool_decide_unpack _); vm_compute; exact I.

(** ** The uniqueness validator *)

(** C10: [nested] is atomic and value-preserving.  On a value already in
    the captured set it raises and leaves the set as it was; on a value not
    in the set it returns the value unchanged and the set gains exactly that
    value. *)
Theorem nested_atomic {T : Type} `{Countable T} (v : T) (seen : gset T) :
  (v ∈ seen -> nested v seen = (Raise (Value_is_not_unique v), seen)) /\
  (v ∉ seen ->
   nested v seen = (Return v, {[v]} ∪ seen) /\
   forall x, x ∈ (nested v seen).2 <-> x = v \/ x ∈ seen).
Proof.
  unfold nested. split; intros Hv.
  - destruct (decide (v ∈ seen)); [reflexivity | contradiction].
  - destruct (decide (v ∈ seen)); [contradiction |].
    split; [reflexivity | intros x; simpl; set_solver].
Qed.

Lemma nested_atomic_witness :
  nested "east" ({["east"]} : gset string)
    = (Raise (Value_is_not_unique "east"), {["east"]}) /\
  nested "west" ({["east"]} : gset string)
    = (Return "west", {["west"]} ∪ {["east"]}).
Proof.
  split.
  - apply (proj1 (nested_atomic "east" {["east"]})). set_solver.
  - apply (proj2 (nested_atomic "west" {["east"]})). set_solver.
Defined.

(** The captured set only grows. *)
Lemma nested_mono {T : Type} `{Countable T} (v : T) (seen : gset T) :
  seen ⊆ (nested v seen).2.
Proof. unfold nested. destruct (decide (v ∈ seen)); simpl; set_solver. Qed.

(** ** Splitting a comma-separated cell into a set *)

Lemma lstrip_first sp s c :
  Str.first (Str.lstrip sp s) = Some c -> sp c = false.
Proof.
  induction s as [|a s IH]; simpl; [discriminate |].
  destruct (sp a) eqn:Ha; [exact IH |].
  simpl. intros [= <-]. exact Ha.
Qed.

Lemma rstrip_first sp s c :
  Str.first (Str.rstrip sp s) = Some c -> Str.first s = Some c.
Proof.
  destruct s as [|a s]; simpl; [discriminate |].
  destruct (Str.rstrip sp s); [destruct (sp a) |]; simpl; congruence.
Qed.

Lemma rstrip_last sp s c :
  Str.last (Str.rstrip sp s) = Some c -> sp c = false.
Proof.
  induction s as [|a s IH]; simpl; [discriminate |].
  destruct (Str.rstrip sp s) as [|b r] eqn:Hr.
  - destruct (sp a) eqn:Ha; simpl; [discriminate |].
    intros [= <-]. exact Ha.
  - exact IH.
Qed.

(** What [strip] returns has no white space at either end. *)
Lemma strip_with_trimmed sp s : Str.trimmed sp (Str.strip_with sp s).
Proof.
  unfold Str.strip_with. split; intros c Hc.
  - apply rstrip_first in Hc. eapply lstrip_first, Hc.
  - eapply rstrip_last, Hc.
Qed.

(** Every member of the set [coerce_splt_commas_rtn_set_strs] builds is a
    stripped piece of the cell between two commas. *)
Lemma coerce_splt_commas_members s X e :
  coerce_splt_commas_rtn_set_strs s = Some X -> e ∈ X ->
  Str.trimmed Str.py_isspace e /\
  exists piece, piece ∈ Str.split "," s /\ piece <> "" /\ e = Str.strip piece.
Proof.
  unfold coerce_splt_commas_rtn_set_strs, split_strip.
  destruct (Str.truthy s); [| discriminate].
  intros [= <-] He.
  apply elem_of_list_to_set, list_elem_of_fmap in He as (piece & -> & Hp).
  apply list_elem_of_filter in Hp as [Ht Hp].
  split; [apply strip_with_trimmed |].
  exists piece. split; [exact Hp |]. split; [| reflexivity].
  intros ->. discriminate.
Qed.

(** Scenario E: the cell [" a, b ,,a"] becomes the set of [a] and [b]. *)
Lemma coerce_splt_commas_scenario_E :
  coerce_splt_commas_rtn_set_strs " a, b ,,a" = Some {["a"; "b"]}.
Proof.
  reflexivity.
Qed.

(** The set is written as its members joined by commas, in the order the
    set is walked in. *)
Lemma dump_set_of_vals_permutation (order : SetOrder) (X : gset string) :
  (forall Y, order Y ≡ₚ elements Y) -> X <> ∅ ->
  exists l, l ≡ₚ elements X /\ dump_set_of_vals order (Some X) = Str.join "," l.
Proof.
  intros Horder HX. exists (order X). split; [apply Horder |].
  unfold dump_set_of_vals. destruct (decide (X = ∅)); [contradiction | reflexivity].
Qed.

Lemma dump_set_of_vals_scenario_E (order : SetOrder) :
  (forall Y, order Y ≡ₚ elements Y) ->
  dump_set_of_vals order (Some {["a"; "b"]}) = "a,b" \/
  dump_set_of_vals order (Some {["a"; "b"]}) = "b,a".
Proof.
  intros Horder.
  assert (Hne : ({["a"; "b"]} : gset string) <> ∅) by set_solver.
  unfold dump_set_of_vals. destruct (decide (_ = ∅)); [contradiction |].
  assert (Hel : elements ({["a"; "b"]} : gset string) ≡ₚ ["a"; "b"]).
  { rewrite elements_union_singleton by set_solver.
    by rewrite elements_singleton. }
  specialize (Horder {["a"; "b"]}). rewrite Hel in Horder.
  destruct (order {["a"; "b"]}) as [|x [|y [|z l]]] eqn:Ho.
  - apply Permutation_nil_l in Horder. discriminate.
  - apply Permutation_length in Horder. discriminate.
  - apply Permutation_length_2 in Horder as [[-> ->] | [-> ->]]; auto.
  - apply Permutation_length in Horder. discriminate.
Qed.

(** C3: a piece of the cell that holds only white space is not dropped: it
    passes the test [if e] and is stripped afterwards, so the set built from
    ["a, ,b"] has the empty string among its members. *)
Theorem coerce_splt_commas_keeps_blank_piece :
  split_strip "a, ,b" = ["a"; ""; "b"] /\
  exists X, coerce_splt_commas_rtn_set_strs "a, ,b" = Some X /\ "" ∈ X.
Proof.
  split; [reflexivity |].
  eexists. split; [reflexivity |].
  apply elem_of_list_to_set.
  replace (split_strip "a, ,b") with ["a"; ""; "b"] by reflexivity.
  set_solver.
Qed.

(** ** IPv4 networks *)

(** A cell that [validate_ipv4_address] accepts is returned as it is. *)
Lemma validate_ipv4_address_returns_input ip is_mandatory r :
  validate_ipv4_address ip is_mandatory = Return r -> r = ip.
Proof.
  unfold validate_ipv4_address.
  destruct (negb (Str.truthy ip) && negb is_mandatory); [congruence |].
  destruct (ipaddress.IPv4Network ip false); congruence.
Qed.

(** C9: an [IP] field rejects ["10.0.0.1/33"] with the invalid-CIDR error
    (33 is not a netmask) and accepts ["10.0.0.0/24"], which parses as the
    network 10.0.0.0 with a 24-bit mask; host bits are allowed, so
    ["10.0.0.1/24"] is accepted too.  An accepted value is stored and dumped
    as the very string that was given. *)
Theorem IP_scenario_D :
  IP (Some "10.0.0.1/33")
    = Raise [(value_error
                (Not_a_CIDR
                   (Invalid_CIDR_value "10.0.0.1/33"
                      (Some (ipaddress.Is_not_a_valid_netmask "33")))),
              InputCell (Some "10.0.0.1/33"))] /\
  IP (Some "10.0.0.0/24") = Return (VStr "10.0.0.0/24") /\
  ipaddress.IPv4Network "10.0.0.0/24" false
    = Return {| ipaddress.network_address := 10 * 2 ^ 24;
                ipaddress.netmask := 2 ^ 32 - 2 ^ 8;
                ipaddress._prefixlen := 24 |} /\
  IP (Some "10.0.0.1/24") = Return (VStr "10.0.0.1/24") /\
  (forall (order : SetOrder) (seen : Seen),
     exists obj,
       validate_python IPFields
         [("ip", Some "10.0.0.0/24"); ("network", Some "10.0.0.0/24")] seen
         = (Return obj, seen) /\
       model_dump order IPFields obj
         = [("ip", VStr "10.0.0.0/24"); ("network", VStr "10.0.0.0/24")]).
Proof.
  repeat split; try reflexivity.
  intros order seen. eexists. split; reflexivity.
Qed.

(** ** The header *)

(** A model that was loaded logs nothing at error level. *)
Lemma _load_model_dynamic_quiet {St : Type} (l : Loaded St) model :
  (_load_model_dynamic l).1 = Return model ->
  filter (λ r : LogRecord, r.1 = ERROR) (_load_model_dynamic l).2 = [].
Proof. destruct l as [| | | | | []]; simpl; (reflexivity || discriminate). Qed.

(** C7: when the reader has no field names ([None] for an empty file, or
    an empty first line), the run logs the one error [Missing CSV field
    names] and returns 1: not 0 (valid) and not -1 (invalid).  The lines of
    the source play no part: nothing is validated, nothing is written, the
    state of the validators is untouched. *)
Theorem run_missing_field_names {St : Type} (order : SetOrder)
  (builtin : Model St) (inv : Invocation St) (st : St) model reader :
  (_load_model_dynamic (validator_module inv)).1 = Return model ->
  source inv = Some reader ->
  fieldnames reader = fieldnames_None \/ fieldnames reader = fieldnames_list [] ->
  run order builtin inv st
    = {| exit_code := Return 1%Z;
         log := ((_load_model_dynamic (validator_module inv)).2 ++
                 [(DEBUG, Using_source_file); (ERROR, Missing_CSV_field_names)])%list;
         output_file := None;
         state := st |} /\
  filter (λ r : LogRecord, r.1 = ERROR) (log (run order builtin inv st))
    = [(ERROR, Missing_CSV_field_names)] /\
  exit_code (run order builtin inv st) <> Return 0%Z /\
  exit_code (run order builtin inv st) <> Return (-1)%Z.
Proof.
  intros Hload Hsrc Hnames.
  assert (Hrun : run order builtin inv st
    = {| exit_code := Return 1%Z;
         log := ((_load_model_dynamic (validator_module inv)).2 ++
                 [(DEBUG, Using_source_file); (ERROR, Missing_CSV_field_names)])%list;
         output_file := None;
         state := st |}).
  { unfold run. destruct (_load_model_dynamic (validator_module inv)) as [r log0].
    simpl in Hload. subst r. rewrite Hsrc.
    destruct Hnames as [-> | ->]; simpl; by rewrite <- app_assoc. }
  rewrite Hrun. simpl. split; [reflexivity |].
  split; [| split; discriminate].
  rewrite filter_app, (_load_model_dynamic_quiet _ model Hload). reflexivity.
Qed.

Lemma run_missing_field_names_witness :
  exit_code
    (run elements BaseCluster
       {| validator_module := no_validator_module;
          source := Some {| fieldnames := fieldnames_None; lines := [];
                            end_line_num := 0 |};
          output := Some true |} ∅) <> Return 0%Z.
Proof.
  refine (proj1 (proj2 (proj2
    (run_missing_field_names elements BaseCluster _ ∅ None _ _ _ _)))).
  - reflexivity.
  - reflexivity.
  - left. reflexivity.
Defined.

(** The error flag of the loop over the rows is sticky. *)
Lemma row_loop_sticky {St : Type} order (model : Model St) writer n lines st :
  (row_loop order model writer n lines true st).1.1.1 <> Return false.
Proof.
  revert st. induction lines as [|[line_num [row| |]] lines IH]; intros st; simpl;
    [discriminate | | discriminate | discriminate].
  destruct (_validate_csv_row model line_num row st) as [[[[clus row_error]|e] log1] st1];
    [| discriminate].
  specialize (IH st1).
  replace (if row_error then true else true) with true by (by destruct row_error).
  destruct (row_loop order model writer n lines true st1) as [[[r log'] out] st2].
  exact IH.
Qed.

Lemma missing_fields_spec {St : Type} (fields : list (string * FieldInfo St))
  (names : list string) :
  (missing_fields fields names).2
    = ((λ f, if is_required f.2 then (ERROR, Required_field_is_not_present f.1)
             else (WARNING, Optional_field_is_not_present f.1))
         <$> filter (λ f, f.1 ∉ names) fields) /\
  ((missing_fields fields names).1 = true <->
   exists name field, (name, field) ∈ fields /\ (name ∉ names) /\ is_required field = true).
Proof.
  induction fields as [|[name field] fields [IHlog IHflag]]; simpl.
  - split; [reflexivity |]. split; [discriminate |].
    intros (? & ? & Hin & _). by apply elem_of_nil in Hin.
  - destruct (missing_fields fields names) as [validation_error log1].
    simpl in IHlog, IHflag. rewrite filter_cons. simpl.
    destruct (decide (name ∉ names)) as [Hmiss | Hpresent].
    + rewrite bool_decide_eq_true_2 by exact Hmiss.
      destruct (is_required field) eqn:Hreq; simpl; rewrite Hreq, IHlog.
      * split; [reflexivity |]. split; [| reflexivity].
        intros _. exists name, field. split; [left | done].
      * split; [reflexivity |]. rewrite IHflag. split.
        -- intros (n & f & Hin & ? & ?). exists n, f. split; [by right | done].
        -- intros (n & f & Hin & ? & ?).
           apply elem_of_cons in Hin as [[= -> ->] | Hin]; [congruence |].
           by exists n, f.
    + rewrite bool_decide_eq_false_2 by exact Hpresent. simpl.
      split; [exact IHlog |]. rewrite IHflag. split.
      * intros (n & f & Hin & ? & ?). exists n, f. split; [by right | done].
      * intros (n & f & Hin & ? & ?).
        apply elem_of_cons in Hin as [[= -> ->] | Hin]; [contradiction |].
        by exists n, f.
Qed.

Lemma _validate_csv_fields_nonempty {St : Type} (model : Model St) names :
  names <> [] ->
  _validate_csv_fields model (fieldnames_list names)
    = (Return (missing_fields (model_fields model) names).1,
       (missing_fields (model_fields model) names).2).
Proof.
  intros Hne. unfold _validate_csv_fields.
  destruct names; [contradiction |].
  by destruct (missing_fields (model_fields model) (s :: names)).
Qed.

(** C6, for a header that has at least one name: the header check returns
    normally; its log holds, for the fields of the model whose names the
    header lacks and in the order of the model, one error record for a
    required field and one warning record for an optional one, and nothing
    else; the flag it returns is set exactly when a required field is
    missing.  A flag that is set stays set through the loop over the rows
    and the run does not return 0; with the flag clear and no rows the run
    returns 0, whatever warnings were logged. *)
Theorem header_diagnostics {St : Type} (model : Model St) (names : list string) :
  names <> [] ->
  exists failed log,
    _validate_csv_fields model (fieldnames_list names) = (Return failed, log) /\
    log = ((λ f, if is_required f.2 then (ERROR, Required_field_is_not_present f.1)
                 else (WARNING, Optional_field_is_not_present f.1))
             <$> filter (λ f, f.1 ∉ names) (model_fields model)) /\
    (forall name field, (name, field) ∈ model_fields model -> name ∉ names ->
       if is_required field
       then (ERROR, Required_field_is_not_present name) ∈ log /\ failed = true
       else (WARNING, Optional_field_is_not_present name) ∈ log) /\
    (failed = true <->
     exists name field,
       (name, field) ∈ model_fields model /\ (name ∉ names) /\ is_required field = true) /\
    (forall order builtin out lines n st,
       out <> Some false ->
       let o := run order builtin
                  {| validator_module := loaded_model model;
                     source := Some {| fieldnames := fieldnames_list names;
                                       lines := lines; end_line_num := n |};
                     output := out |} st in
       (failed = true -> exit_code o <> Return 0%Z) /\
       (failed = false -> lines = [] -> exit_code o = Return 0%Z)).
Proof.
  intros Hne.
  destruct (missing_fields_spec (model_fields model) names) as [Hlog Hflag].
  exists (missing_fields (model_fields model) names).1,
         (missing_fields (model_fields model) names).2.
  split; [by apply _validate_csv_fields_nonempty |].
  split; [exact Hlog |].
  split; [| split; [exact Hflag |]].
  - intros name field Hin Hmiss. rewrite Hlog.
    assert (Hmem : (name, field) ∈ filter (λ f, f.1 ∉ names) (model_fields model))
      by (by apply list_elem_of_filter).
    apply (list_elem_of_fmap_2
             (λ f : string * FieldInfo St,
                if is_required f.2 then (ERROR, Required_field_is_not_present f.1)
                else (WARNING, Optional_field_is_not_present f.1))) in Hmem.
    simpl in Hmem. destruct (is_required field) eqn:Hreq; [| exact Hmem].
    split; [exact Hmem |]. apply Hflag. by exists name, field.
  - intros order builtin out lines n st Hout. simpl.
    unfold run. cbn -[_validate_csv_fields row_loop].
    rewrite _validate_csv_fields_nonempty by exact Hne.
    set (failed := (missing_fields (model_fields model) names).1).
    set (writer := bool_decide (out = Some true)).
    split.
    + intros ->.
      pose proof (row_loop_sticky order model writer n lines st) as Hsticky.
      destruct out as [[|]|]; [| contradiction |];
        destruct (row_loop order model _ n lines true st) as [[[[[|]|e] log4] rows] st'];
        simpl in *; congruence.
    + intros -> ->. by destruct out as [[|]|].
Qed.

Lemma header_diagnostics_witness :
  exists failed log,
    _validate_csv_fields RegistryModel
      (fieldnames_list ["cluster_name"; "cluster_group"; "cluster_tags";
                        "platform_repository"; "platform_repository_revision";
                        "workload_repository"; "workload_repository_revision"])
      = (Return failed, log) /\
    failed = false /\
    log = [(WARNING, Optional_field_is_not_present "platform_repository_branch");
           (WARNING, Optional_field_is_not_present "workload_repository_branch")].
Proof.
  edestruct (header_diagnostics RegistryModel
               ["cluster_name"; "cluster_group"; "cluster_tags";
                "platform_repository"; "platform_repository_revision";
                "workload_repository"; "workload_repository_revision"])
    as (failed & log & Heq & _); [discriminate |].
  exists failed, log. split; [exact Heq |].
  vm_compute in Heq. by injection Heq as <- <-.
Defined.

(** The claim of C6 without the restriction on the header does not hold:
    with an empty list of field names the header check logs no warning for
    an optional field that is missing, and no error that names a required
    one; it raises instead. *)
Lemma header_diagnostics_empty_header :
  ~ (forall (model : Model Seen) (names : list string) name field,
       (name, field) ∈ model_fields model -> name ∉ names ->
       if is_required field
       then (ERROR, Required_field_is_not_present name)
              ∈ (_validate_csv_fields model (fieldnames_list names)).2
       else (WARNING, Optional_field_is_not_present name)
              ∈ (_validate_csv_fields model (fieldnames_list names)).2).
Proof.
  intros Hclaim.
  specialize (Hclaim RegistryModel [] "platform_repository_branch"
                (optional (stateless OptionalStrippedStr))).
  simpl in Hclaim.
  assert (Hin : (WARNING, Optional_field_is_not_present "platform_repository_branch")
                  ∈ [(ERROR, Missing_CSV_field_names)]).
  { apply Hclaim; [| apply not_elem_of_nil].
    unfold RegistryModel. simpl. do 5 right. left. }
  apply list_elem_of_singleton in Hin. discriminate.
Qed.

(** ** One row *)

(** A row with cells beyond its field names is never validated: it is
    reported as a [TypeError] under its [cluster_name], and when the row has
    no such key the lookup raises. *)
Lemma _validate_csv_row_restkey {St : Type} (model : Model St) line_num row st rest :
  csv.restkey row = Some rest ->
  _validate_csv_row model line_num row st
    = match dict_get "cluster_name" (csv.items row) with
      | Some name => (Return (None, true), [(ERROR, Line_TypeError line_num name)], st)
      | None => (Raise (KeyError "cluster_name"), [], st)
      end.
Proof. intros Hrest. unfold _validate_csv_row, model_call. by rewrite Hrest. Qed.

(** C8: a line with three cells under the two field names [cluster_group]
    and [cluster_tags] gives a row with the surplus cell under the key
    [None]; [_validate_csv_row] raises [KeyError] on it, which nothing in
    [run] catches: the run ends with the exception and its log has no
    record about any line. *)
Theorem malformed_row_without_cluster_name_raises :
  let names := ["cluster_group"; "cluster_tags"] in
  let row := csv.DictReader_next names ["us"; "lab"; "prod"] in
  row = {| csv.items := [("cluster_group", Some "us"); ("cluster_tags", Some "lab")];
           csv.restkey := Some ["prod"] |} /\
  _validate_csv_row BaseCluster 2 row (∅ : Seen)
    = (Raise (KeyError "cluster_name"), [], ∅) /\
  forall (order : SetOrder) (writer : bool),
    let o := run order BaseCluster
               {| validator_module := no_validator_module;
                  source := Some {| fieldnames := fieldnames_list names;
                                    lines := [(2%nat, next_row row)];
                                    end_line_num := 2 |};
                  output := if writer then Some true else None |} (∅ : Seen) in
    exit_code o = Raise (KeyError "cluster_name") /\
    Forall (λ r, line_of r = None) (log o).
Proof.
  split; [reflexivity |]. split; [reflexivity |].
  intros order [|]; simpl; (split; [reflexivity | by repeat constructor]).
Qed.


(** Two facts about [filter]. *)
Lemma filter_none {A : Type} (P : A -> Prop) `{!forall x, Decision (P x)} (l : list A) :
  (forall x, x ∈ l -> ~ P x) -> filter P l = [].
Proof.
  induction l as [|a l IH]; intros Hl; [reflexivity |].
  rewrite filter_cons_False by (apply Hl; left).
  apply IH. intros x Hx. apply Hl. by right.
Qed.




(** The rows the reader builds are dicts: their keys are distinct. *)
Lemma dict_set_NoDup {V : Type} (k : string) (v : V) (d : list (string * V)) :
  NoDup (keys d) -> NoDup (keys (dict_set k v d)).
Proof.
  unfold keys. induction d as [|[k' v'] d IH]; simpl; intros Hnd.
  - apply NoDup_singleton.
  - apply NoDup_cons in Hnd as [Hk Hnd].
    destruct (String.eqb k k') eqn:Heq; simpl.
    + by apply NoDup_cons.
    + apply NoDup_cons. split; [| by apply IH].
      apply String.eqb_neq in Heq.
      clear -Hk Heq. induction d as [|[k0 v0] d IHd]; simpl.
      * intros Hin. apply list_elem_of_singleton in Hin. congruence.
      * destruct (String.eqb k k0); simpl; [exact Hk |].
        intros [-> | Hin]%elem_of_cons; [apply Hk; left |].
        apply IHd; [| exact Hin]. intros Hin'. apply Hk. by right.
Qed.

Lemma DictReader_next_NoDup (fieldnames row : list string) :
  NoDup (keys (csv.items (csv.DictReader_next fieldnames row))).
Proof.
  assert (Hzip : forall d, NoDup (keys d) ->
                   NoDup (keys (csv.dict_zip fieldnames row d))).
  { revert row. induction fieldnames as [|k fieldnames IH]; intros [|c row] d Hd;
      simpl; try exact Hd.
    apply IH. by apply dict_set_NoDup. }
  unfold csv.DictReader_next.
  destruct (length fieldnames <? length row)%nat; simpl.
  - apply Hzip, NoDup_nil_2.
  - generalize (drop (length row) fieldnames).
    generalize (csv.dict_zip fieldnames row []) (Hzip [] (NoDup_nil_2)).
    intros d Hd l. revert d Hd.
    induction l as [|k l IHl]; intros d Hd; simpl; [exact Hd |].
    apply IHl. by apply dict_set_NoDup.
Qed.




(** *** Every failing field is reported *)

(** A row without surplus cells: the log is the list of the errors of
    [validate_python], and an object is returned when there is none. *)
Lemma _validate_csv_row_errors {St : Type} (model : Model St) line_num row st :
  csv.restkey row = None ->
  let errors := ((validate_fields (model_fields model) (csv.items row) st).1.1
                 ++ validate_extras model (csv.items row))%list in
  exists clus row_error,
    _validate_csv_row model line_num row st
      = (Return (clus, row_error), error_record line_num row <$> errors,
         (validate_fields (model_fields model) (csv.items row) st).2) /\
    (errors = [] -> row_error = false /\ exists obj, clus = Some obj) /\
    (errors <> [] -> row_error = true /\ clus = None).
Proof.
  intros Hrest. unfold _validate_csv_row, model_call, validate_python.
  rewrite Hrest.
  destruct (validate_fields (model_fields model) (csv.items row) st)
    as [[errors model_dict] st'].
  simpl. destruct (errors ++ validate_extras model (csv.items row))%list as [|e l].
  - exists (Some model_dict), false. split; [reflexivity |].
    split; [eauto | congruence].
  - exists None, true. split; [reflexivity |]. split; [discriminate | done].
Qed.

(** The validators of [BaseCluster] report at most one error. *)
Lemma ClusterName_result (value : Cell) (seen : Seen) :
  match str_schema ClusterName_constraints value with
  | Raise e => ClusterName value seen = (Raise [(e, InputCell value)], seen)
  | Return v =>
      if decide (v ∈ seen)
      then ClusterName value seen
           = (Raise [(value_error (Not_unique (Value_is_not_unique v)),
                      InputCell value)], seen)
      else ClusterName value seen = (Return (VStr v), {[v]} ∪ seen)
  end.
Proof.
  unfold ClusterName, nested.
  destruct (str_schema ClusterName_constraints value) as [v | e]; [| reflexivity].
  destruct (decide (v ∈ seen)) as [Hin | Hnin].
  - by rewrite decide_True.
  - by rewrite decide_False.
Qed.

Lemma plain_str_result (value : Cell) :
  plain_str value
    = match value with
      | Some s => Return (VStr s)
      | None => Raise [(string_type, InputCell None)]
      end.
Proof. by destruct value. Qed.

Lemma ClusterTags_accepts (value : Cell) : exists v, ClusterTags value = Return v.
Proof.
  unfold ClusterTags.
  destruct (value ≫= coerce_splt_commas_rtn_set_strs) as [X |]; [| eauto].
  destruct (decide (X = ∅)); eauto.
Qed.


(** The fields after [cluster_name] have no state, so the errors of the
    fields of a row are those each field reports on its own, in the order of
    the fields. *)
Lemma BaseCluster_fields_errors data (seen : Seen) :
  (validate_fields (model_fields BaseCluster) data seen).1.1
    = flat_map (λ f, with_outer_location f.1 <$> field_failure data seen f)
        (model_fields BaseCluster).
Proof.
  unfold field_failure. simpl.
  destruct (dict_get "cluster_name" data) as [c1 |];
    destruct (dict_get "cluster_group" data) as [c2 |];
    destruct (dict_get "cluster_tags" data) as [c3 |]; simpl;
    try (destruct (ClusterName c1 seen) as [[v1 | e1] seen1]; simpl);
    try (destruct (plain_str c2) as [v2 | e2]; simpl);
    try (destruct (ClusterTags c3) as [v3 | e3]; simpl);
    rewrite ?app_nil_r; try reflexivity; by rewrite <- ?app_assoc.
Qed.









(** ** A session: the rows one after another *)

Lemma repeats_size (seen : gset string) (vs : list string) :
  repeats seen vs + size (list_to_set vs ∖ seen : gset string) = length vs.
Proof.
  revert seen. induction vs as [|a vs IH]; intros seen; simpl.
  - replace (∅ ∖ seen) with (∅ : gset string) by set_solver.
    by rewrite size_empty.
  - specialize (IH ({[a]} ∪ seen)).
    destruct (decide (a ∈ seen)) as [Hin | Hnin].
    + replace (({[a]} ∪ list_to_set vs) ∖ seen)
        with (list_to_set vs ∖ ({[a]} ∪ seen) : gset string)
        by (clear -Hin; set_solver).
      lia.
    + replace (({[a]} ∪ list_to_set vs) ∖ seen)
        with ({[a]} ∪ list_to_set vs ∖ ({[a]} ∪ seen) : gset string)
        by (clear -Hnin; apply set_eq; intros x; destruct (decide (x = a));
            set_solver).
      assert (Hdisj : ({[a]} : gset string) ## list_to_set vs ∖ ({[a]} ∪ seen))
        by (clear -Hnin; set_solver).
      rewrite (size_union _ _ Hdisj), size_singleton. lia.
Qed.

Lemma sum_indicator (l : list string) (a : string) :
  NoDup l -> a ∈ l ->
  sum_list_with (λ v, if decide (a = v) then 1 else 0) l = 1.
Proof.
  induction l as [|x l IH]; intros Hnd Hin; [by apply elem_of_nil in Hin |].
  apply NoDup_cons in Hnd as [Hx Hnd]. simpl.
  destruct (decide (a = x)) as [-> | Hne].
  - assert (Hz : sum_list_with (λ v, if decide (x = v) then 1 else 0) l = 0).
    { clear -Hx. induction l as [|y l IH]; [reflexivity |]. simpl.
      rewrite decide_False by (intros ->; apply Hx; left).
      apply IH. intros Hin. apply Hx. by right. }
    lia.
  - apply elem_of_cons in Hin as [-> | Hin]; [contradiction |].
    by rewrite IH.
Qed.

Lemma sum_occurrences (l vs : list string) :
  NoDup l -> (forall x, x ∈ vs -> x ∈ l) ->
  sum_list_with (λ v, occurrences v vs) l = length vs.
Proof.
  intros Hnd. induction vs as [|a vs IH]; intros Hsub.
  - clear. induction l; simpl; [reflexivity | assumption].
  - assert (Hsplit : sum_list_with (λ v, occurrences v (a :: vs)) l
                     = sum_list_with (λ v, if decide (a = v) then 1 else 0) l
                       + sum_list_with (λ v, occurrences v vs) l).
    { clear. induction l as [|x l IHl]; [reflexivity |]. simpl.
      rewrite IHl. unfold occurrences at 1. rewrite filter_cons.
      destruct (decide (a = x)); simpl; fold (occurrences x vs); lia. }
    rewrite Hsplit, (sum_indicator l a Hnd) by (apply Hsub; left).
    rewrite IH by (intros x Hx; apply Hsub; by right).
    reflexivity.
Qed.

(** The repeats of a list, counted value by value. *)
Lemma repeats_sum (vs : list string) :
  repeats ∅ vs = sum_list_with (λ v, occurrences v vs - 1) (remove_dups vs).
Proof.
  pose proof (repeats_size ∅ vs) as Hsize.
  replace (list_to_set vs ∖ ∅) with (list_to_set (remove_dups vs) : gset string)
    in Hsize.
  2:{ apply set_eq. intros x.
      rewrite elem_of_difference, !elem_of_list_to_set, elem_of_remove_dups.
      set_solver. }
  rewrite size_list_to_set in Hsize by apply NoDup_remove_dups.
  pose proof (sum_occurrences (remove_dups vs) vs (NoDup_remove_dups vs)) as Hocc.
  rewrite <- Hocc in Hsize by (intros x; by rewrite elem_of_remove_dups).
  assert (Hge : forall v, v ∈ remove_dups vs -> 1 <= occurrences v vs).
  { intros v Hv. rewrite elem_of_remove_dups in Hv. unfold occurrences.
    assert (Hf : v ∈ filter (λ x, x = v) vs)
      by (apply list_elem_of_filter; split; [reflexivity | exact Hv]).
    destruct (filter (λ x, x = v) vs); [by apply elem_of_nil in Hf | simpl; lia]. }
  assert (Hle : sum_list_with (λ v, occurrences v vs - 1) (remove_dups vs)
                + length (remove_dups vs)
                = sum_list_with (λ v, occurrences v vs) (remove_dups vs)).
  { revert Hge. generalize (remove_dups vs). clear.
    intros l. induction l as [|y l IHl]; intros Hge; [reflexivity |]. simpl.
    assert (1 <= occurrences y vs) by (apply Hge; left).
    rewrite <- IHl by (intros v Hv; apply Hge; by right). lia. }
  lia.
Qed.

Lemma BaseCluster_fields_state data (seen : Seen) :
  (validate_fields (model_fields BaseCluster) data seen).2
    = match dict_get "cluster_name" data with
      | Some value => (ClusterName value seen).2
      | None => seen
      end.
Proof.
  simpl.
  destruct (dict_get "cluster_name" data) as [c1 |];
    destruct (dict_get "cluster_group" data) as [c2 |];
    destruct (dict_get "cluster_tags" data) as [c3 |]; simpl;
    try (destruct (ClusterName c1 seen) as [[v1 | e1] seen1]; simpl);
    try (destruct (plain_str c2) as [v2 | e2]; simpl);
    try (destruct (ClusterTags c3) as [v3 | e3]; simpl);
    reflexivity.
Qed.

Lemma validate_extras_records (line_num : nat) (row : csv.Row) :
  let log := error_record line_num row <$> validate_extras BaseCluster (csv.items row) in
  filter (λ r, column_of r = Some "cluster_name") log = [] /\
  filter (λ r, is_not_unique r = true) log = [].
Proof.
  simpl. unfold validate_extras. simpl. rewrite <- list_fmap_compose.
  split; apply filter_none; intros r (kv & -> & Hkv)%list_elem_of_fmap; simpl.
  - apply list_elem_of_filter in Hkv as [Hkey _]. intros [= Heq].
    rewrite Heq in Hkey. vm_compute in Hkey. discriminate.
  - discriminate.
Qed.

Lemma error_record_line (line_num : nat) (row : csv.Row) (es : list ErrorDetails) r :
  r ∈ error_record line_num row <$> es -> line_of r = Some line_num.
Proof. by intros (e & -> & _)%list_elem_of_fmap. Qed.

Lemma str_schema_error c value e :
  str_schema c value = Raise e -> forall ve, e <> value_error ve.
Proof.
  unfold str_schema. destruct value as [s |]; [| by intros [= <-]].
  repeat case_match; by intros [= <-].
Qed.

Lemma ClusterName_failure data (seen : Seen) :
  field_failure data seen ("cluster_name", required ClusterName)
    = match dict_get "cluster_name" data with
      | None => [(missing, InputData data)]
      | Some value =>
          match str_schema ClusterName_constraints value with
          | Raise e => [(e, InputCell value)]
          | Return v =>
              if decide (v ∈ seen)
              then [(value_error (Not_unique (Value_is_not_unique v)), InputCell value)]
              else []
          end
      end.
Proof.
  unfold field_failure. simpl.
  destruct (dict_get "cluster_name" data) as [value |]; [| reflexivity].
  pose proof (ClusterName_result value seen) as HCN.
  destruct (str_schema ClusterName_constraints value) as [v | e]; [| by rewrite HCN].
  destruct (decide (v ∈ seen)); by rewrite HCN.
Qed.

(** The records of a row of [BaseCluster]: those of [cluster_name], then
    records that are neither about that column nor about uniqueness. *)
Lemma BaseCluster_records (line_num : nat) (row : csv.Row) (seen : Seen) :
  exists others,
    error_record line_num row <$>
      ((validate_fields (model_fields BaseCluster) (csv.items row) seen).1.1
       ++ validate_extras BaseCluster (csv.items row))%list
    = ((error_record line_num row <$>
          (with_outer_location "cluster_name" <$>
             field_failure (csv.items row) seen ("cluster_name", required ClusterName)))
       ++ others)%list /\
    filter (λ r, column_of r = Some "cluster_name") others = [] /\
    filter (λ r, is_not_unique r = true) others = [].
Proof.
  destruct (validate_extras_records line_num row) as [Hxc Hxu].
  rewrite BaseCluster_fields_errors.
  cbn [flat_map model_fields BaseCluster].
  rewrite <- !app_assoc, fmap_app.
  eexists. split; [reflexivity |].
  rewrite !fmap_app, !filter_app, Hxc, Hxu. clear Hxc Hxu.
  unfold field_failure. simpl.
  destruct (dict_get "cluster_group" (csv.items row)) as [[c2 |] |];
    destruct (dict_get "cluster_tags" (csv.items row)) as [c3 |];
    try (destruct (ClusterTags_accepts c3) as [v3 ->]); split; reflexivity.
Qed.

Lemma BaseCluster_row (line_num : nat) (row : csv.Row) (seen : Seen) :
  no_raise row ->
  exists clus row_error log,
    _validate_csv_row BaseCluster line_num row seen
      = (Return (clus, row_error), log,
         match unique_key row with Some v => {[v]} ∪ seen | None => seen end) /\
    (forall r, r ∈ log -> line_of r = Some line_num) /\
    (forall v value,
       unique_key row = Some v ->
       dict_get "cluster_name" (csv.items row) = Some value ->
       filter (λ r, column_of r = Some "cluster_name") log
         = if decide (v ∈ seen) then [not_unique_record line_num row v value] else []) /\
    length (filter (λ r, is_not_unique r = true) log)
      = match unique_key row with
        | Some v => if decide (v ∈ seen) then 1 else 0
        | None => 0
        end.
Proof.
  intros Hnr. unfold unique_key.
  destruct (csv.restkey row) as [rest |] eqn:Hrest.
  - rewrite (_validate_csv_row_restkey _ _ _ _ rest Hrest).
    destruct Hnr as [Hnr | [name Hname]]; [congruence |]. rewrite Hname.
    eexists _, _, _. split; [reflexivity |]. split; [| split; [discriminate | reflexivity]].
    intros r Hr. apply list_elem_of_singleton in Hr as ->. reflexivity.
  - destruct (_validate_csv_row_errors BaseCluster line_num row seen Hrest)
      as (clus & row_error & Hrow & _).
    rewrite BaseCluster_fields_state in Hrow.
    exists clus, row_error. eexists. split; [| split; [apply error_record_line |]].
    + rewrite Hrow. f_equal.
      destruct (dict_get "cluster_name" (csv.items row)) as [c1 |]; [| reflexivity].
      pose proof (ClusterName_result c1 seen) as HCN.
      destruct (str_schema ClusterName_constraints c1) as [v | e];
        [| by rewrite HCN].
      destruct (decide (v ∈ seen)); rewrite HCN; simpl; [| reflexivity].
      apply set_eq. set_solver.
    + destruct (BaseCluster_records line_num row seen) as (others & -> & Hoc & Hou).
      rewrite !filter_app, Hoc, Hou, !app_nil_r, ClusterName_failure.
      clear Hrow Hoc Hou.
      destruct (dict_get "cluster_name" (csv.items row)) as [c1 |];
        [| split; [discriminate | reflexivity]].
      pose proof (str_schema_error ClusterName_constraints c1) as Hne.
      destruct (str_schema ClusterName_constraints c1) as [v | e].
      * split.
        -- intros v0 value [= <-] [= <-]. by destruct (decide (v ∈ seen)).
        -- by destruct (decide (v ∈ seen)).
      * split; [discriminate |].
        specialize (Hne e eq_refl).
        destruct e as [| | | ve | |]; try reflexivity.
        exfalso. by apply (Hne ve).
Qed.

(** The state after a row, whatever the row. *)
Lemma BaseCluster_row_state (line_num : nat) (row : csv.Row) (seen : Seen) :
  (_validate_csv_row BaseCluster line_num row seen).2
    = match unique_key row with Some v => {[v]} ∪ seen | None => seen end.
Proof.
  destruct (csv.restkey row) as [rest |] eqn:Hrest.
  - rewrite (_validate_csv_row_restkey _ _ _ _ rest Hrest).
    unfold unique_key. rewrite Hrest.
    by destruct (dict_get "cluster_name" (csv.items row)).
  - destruct (BaseCluster_row line_num row seen) as (? & ? & ? & -> & _);
      [by left | reflexivity].
Qed.

Lemma values_of_cons nr rows :
  values_of (nr :: rows)
    = match unique_key nr.2 with
      | Some v => v :: values_of rows
      | None => values_of rows
      end.
Proof. unfold values_of. simpl. by destruct (unique_key nr.2). Qed.

Lemma filter_ext_in {A : Type} (P Q : A -> Prop) `{!forall x, Decision (P x)}
  `{!forall x, Decision (Q x)} (l : list A) :
  (forall x, x ∈ l -> P x <-> Q x) -> filter P l = filter Q l.
Proof.
  induction l as [|a l IH]; intros Hl; [reflexivity |].
  rewrite !filter_cons.
  rewrite IH by (intros x Hx; apply Hl; by right).
  destruct (decide (P a)) as [HP | HP], (decide (Q a)) as [HQ | HQ];
    try reflexivity; exfalso.
  - apply HQ, Hl; [left | exact HP].
  - apply HP, Hl; [left | exact HQ].
Qed.

Lemma row_loop_unique (order : SetOrder) (writer : bool) (end_n : nat)
  (rows : list (nat * csv.Row)) (error : bool) (seen : Seen) :
  NoDup rows.*1 -> Forall (λ nr, no_raise nr.2) rows ->
  exists error' log out,
    row_loop order BaseCluster writer end_n (lines_of rows) error seen
      = (Return error', log, out, list_to_set (values_of rows) ∪ seen) /\
    (forall r n, r ∈ log -> line_of r = Some n -> n ∈ rows.*1) /\
    (forall i n row v value,
       rows !! i = Some (n, row) -> unique_key row = Some v ->
       dict_get "cluster_name" (csv.items row) = Some value ->
       filter (λ r, line_of r = Some n /\ column_of r = Some "cluster_name") log
         = if decide (v ∈ list_to_set (values_of (take i rows)) ∪ seen)
           then [not_unique_record n row v value] else []) /\
    length (filter (λ r, is_not_unique r = true) log) = repeats seen (values_of rows).
Proof.
  revert error seen.
  induction rows as [|[n0 row0] rows IH]; intros error seen Hnd Hnr.
  - simpl. eexists _, _, _. split; [f_equal; apply set_eq; set_solver |].
    split; [| split; [| reflexivity]].
    + intros r n Hr. apply list_elem_of_singleton in Hr as ->. discriminate.
    + intros i n row v value Hi. by rewrite lookup_nil in Hi.
  - apply NoDup_cons in Hnd as [Hn0 Hnd]. apply Forall_cons in Hnr as [Hnr0 Hnr].
    destruct (BaseCluster_row n0 row0 seen Hnr0)
      as (clus & row_error & log1 & Hrow & Hline & Hcol & Hcount).
    simpl in Hnr0. simpl lines_of. cbn [row_loop]. rewrite Hrow.
    set (seen1 := match unique_key row0 with Some v => {[v]} ∪ seen | None => seen end) in *.
    destruct (IH (if row_error then true else error) seen1 Hnd Hnr)
      as (error' & log' & out' & Hloop & Hlines' & Hcol' & Hcount').
    fold (lines_of rows). rewrite Hloop.
    set (progress := if (n0 mod 100 =? 0)%nat then [(INFO, Processed_rows n0)] else []).
    assert (Hprogress : forall r, r ∈ progress -> line_of r = None /\ is_not_unique r = false).
    { intros r Hr. unfold progress in Hr. destruct (n0 mod 100 =? 0)%nat.
      - apply list_elem_of_singleton in Hr as ->. done.
      - by apply elem_of_nil in Hr. }
    eexists _, _, _. split; [| split; [| split]].
    + f_equal. rewrite values_of_cons. unfold seen1. simpl.
      destruct (unique_key row0); [| reflexivity].
      apply set_eq. intros x. rewrite list_to_set_cons. set_solver.
    + intros r n [Hr | [Hr | Hr]%elem_of_app]%elem_of_app Hn.
      * apply Hprogress in Hr as [Hr _]. congruence.
      * rewrite (Hline r Hr) in Hn. injection Hn as <-. left.
      * simpl. right. by eapply Hlines'.
    + intros i n row v value Hi Hv Hvalue.
      rewrite !filter_app.
      replace (filter (λ r, line_of r = Some n /\ column_of r = Some "cluster_name") progress)
        with (@nil LogRecord).
      2:{ symmetry. apply filter_none. intros r Hr [Hl _].
          apply Hprogress in Hr as [Hr _]. congruence. }
      simpl. destruct i as [| j]; simpl in Hi.
      * injection Hi as <- <-.
        rewrite (filter_none _ log').
        2:{ intros r Hr [Hl _]. apply Hn0. by eapply Hlines'. }
        rewrite app_nil_r.
        rewrite (filter_ext_in _ (λ r, column_of r = Some "cluster_name") log1).
        2:{ intros r Hr. split; [by intros [_ ?] | intros ?; split; [by apply Hline | done]]. }
        rewrite (Hcol v value Hv Hvalue). simpl.
        apply decide_ext. unfold values_of. simpl. set_solver.
      * assert (Hne : n <> n0).
        { intros ->. apply Hn0. apply list_elem_of_fmap. exists (n0, row).
          split; [reflexivity |]. eapply list_elem_of_lookup_2, Hi. }
        rewrite (filter_none _ log1).
        2:{ intros r Hr [Hl _]. rewrite (Hline r Hr) in Hl. congruence. }
        simpl. rewrite (Hcol' j n row v value Hi Hv Hvalue).
        apply decide_ext.
        unfold seen1. destruct (unique_key row0); [| reflexivity].
        rewrite list_to_set_cons. set_solver.
    + rewrite !filter_app, !length_app, Hcount, Hcount'.
      rewrite (filter_none _ progress).
      2:{ intros r Hr Hu. apply Hprogress in Hr as [_ Hr]. congruence. }
      rewrite values_of_cons. unfold seen1. simpl.
      destruct (unique_key row0); reflexivity.
Qed.

(** *** The run around the loop *)

Lemma missing_fields_quiet {St : Type} (fields : list (string * FieldInfo St)) names :
  Forall quiet (missing_fields fields names).2.
Proof.
  destruct (missing_fields_spec fields names) as [-> _].
  apply Forall_forall. intros r ([name field] & -> & _)%list_elem_of_fmap.
  simpl. by destruct (is_required field).
Qed.

(** A run of the built-in model on a source with a header, when the loop
    over the rows ends without an exception: the exit code tells whether
    the error flag is set, the state is the one the loop leaves, and the log
    is the log of the loop between records that are about no line. *)
Lemma run_around_loop {St : Type} (order : SetOrder) (builtin : Model St)
  names lines end_n out st error' looplog written st' :
  names <> [] -> out <> Some false ->
  row_loop order builtin (bool_decide (out = Some true)) end_n lines
    (missing_fields (model_fields builtin) names).1 st
    = (Return error', looplog, written, st') ->
  let o := run order builtin
             {| validator_module := no_validator_module;
                source := Some {| fieldnames := fieldnames_list names;
                                  lines := lines; end_line_num := end_n |};
                output := out |} st in
  exit_code o = Return (if error' then (-1)%Z else 0%Z) /\
  state o = st' /\
  exists pre post,
    log o = (pre ++ looplog ++ post)%list /\ Forall quiet pre /\ Forall quiet post.
Proof.
  intros Hne Hout Hloop. unfold run. cbn -[_validate_csv_fields row_loop].
  rewrite _validate_csv_fields_nonempty by exact Hne.
  pose proof (missing_fields_quiet (model_fields builtin) names) as Hq.
  destruct out as [[|]|]; [| contradiction |];
    [change (bool_decide (Some true = Some true)) with true in *
    | change (bool_decide (None = Some true)) with false in *];
    cbn -[row_loop missing_fields]; rewrite Hloop; destruct error'; simpl;
    (split; [reflexivity |]); (split; [reflexivity |]).
  - exists ((DEBUG, Using_source_file)
            :: (missing_fields (model_fields builtin) names).2
            ++ [(DEBUG, Using_output_file)])%list,
           [(INFO, CSV_is_invalid); (INFO, Deleting_output)].
    split; [simpl; by rewrite <- app_assoc |].
    split; [| by repeat constructor].
    constructor; [done |]. apply Forall_app. split; [exact Hq | by repeat constructor].
  - exists ((DEBUG, Using_source_file)
            :: (missing_fields (model_fields builtin) names).2
            ++ [(DEBUG, Using_output_file)])%list,
           [(INFO, CSV_is_valid)].
    split; [simpl; by rewrite <- app_assoc |].
    split; [| by repeat constructor].
    constructor; [done |]. apply Forall_app. split; [exact Hq | by repeat constructor].
  - exists ((DEBUG, Using_source_file)
            :: (missing_fields (model_fields builtin) names).2)%list,
           [(INFO, CSV_is_invalid)].
    split; [reflexivity |].
    split; [| by repeat constructor].
    constructor; [done | exact Hq].
  - exists ((DEBUG, Using_source_file)
            :: (missing_fields (model_fields builtin) names).2)%list,
           [(INFO, CSV_is_valid)].
    split; [reflexivity |].
    split; [| by repeat constructor].
    constructor; [done | exact Hq].
Qed.

Lemma filter_quiet (P : LogRecord -> Prop) `{!forall r, Decision (P r)}
  (pre l post : list LogRecord) :
  (forall r, P r -> ~ quiet r) -> Forall quiet pre -> Forall quiet post ->
  filter P (pre ++ l ++ post)%list = filter P l.
Proof.
  intros HP Hpre Hpost. rewrite !filter_app.
  rewrite (filter_none P pre), (filter_none P post), app_nil_r; [reflexivity | |].
  - intros r Hr HPr. eapply HP; [exact HPr |].
    eapply Forall_forall in Hpost; eauto.
  - intros r Hr HPr. eapply HP; [exact HPr |].
    eapply Forall_forall in Hpre; eauto.
Qed.

(** C1, for the values that reach the uniqueness check in a process that
    has validated nothing before.  The run goes over rows whose line numbers
    differ and on none of which [_validate_csv_row] raises.  The value of a
    row is its [unique_key]: the [cluster_name], stripped and lower-cased,
    of a row without surplus cells, when it has 1 to 30 characters.  Then:
    a row whose value is in no earlier row has no record about its
    [cluster_name]; a row whose value is in an earlier row has exactly the
    record of the not-unique error, which holds the value; the records of
    that error are as many as the sum, over the values, of the occurrences
    of the value minus one; and the state the run leaves is the set of the
    values. *)
Theorem first_occurrence_wins (order : SetOrder) (names : list string)
  (rows : list (nat * csv.Row)) (end_n : nat) (out : option bool) :
  names <> [] -> out <> Some false ->
  NoDup rows.*1 -> Forall (λ nr, no_raise nr.2) rows ->
  let o := run order BaseCluster
             {| validator_module := no_validator_module;
                source := Some {| fieldnames := fieldnames_list names;
                                  lines := lines_of rows; end_line_num := end_n |};
                output := out |} (unique_seen : Seen) in
  state o = list_to_set (values_of rows) /\
  (forall i n row v value,
     rows !! i = Some (n, row) -> unique_key row = Some v ->
     dict_get "cluster_name" (csv.items row) = Some value ->
     filter (λ r, line_of r = Some n /\ column_of r = Some "cluster_name") (log o)
       = if decide (v ∈ values_of (take i rows))
         then [not_unique_record n row v value] else []) /\
  length (filter (λ r, is_not_unique r = true) (log o))
    = sum_list_with (λ v, occurrences v (values_of rows) - 1)
        (remove_dups (values_of rows)).
Proof.
  intros Hne Hout Hnd Hnr.
  destruct (row_loop_unique order (bool_decide (out = Some true)) end_n rows
              (missing_fields (model_fields BaseCluster) names).1 unique_seen Hnd Hnr)
    as (error' & looplog & written & Hloop & _ & Hcol & Hcount).
  destruct (run_around_loop order BaseCluster names (lines_of rows) end_n out
              unique_seen error' looplog written _ Hne Hout Hloop)
    as (_ & Hstate & pre & post & Hlog & Hpre & Hpost).
  simpl. rewrite Hstate, Hlog. split; [| split].
  - unfold unique_seen. apply set_eq. set_solver.
  - intros i n row v value Hi Hv Hvalue.
    rewrite filter_quiet; [| | exact Hpre | exact Hpost].
    2:{ intros r [Hl _] [Hq _]. congruence. }
    rewrite (Hcol i n row v value Hi Hv Hvalue).
    apply decide_ext. unfold unique_seen. set_solver.
  - rewrite filter_quiet; [| | exact Hpre | exact Hpost].
    2:{ intros r Hu [_ Hq]. congruence. }
    rewrite Hcount. apply repeats_sum.
Qed.

Lemma first_occurrence_wins_witness :
  length (filter (λ r, is_not_unique r = true)
            (log (run elements BaseCluster (session three_rows) unique_seen))) = 1.
Proof.
  destruct (first_occurrence_wins elements base_names three_rows 4 None)
    as (_ & _ & Hcount).
  - discriminate.
  - discriminate.
  - by_evaluation.
  - repeat constructor; left; reflexivity.
  - unfold session. simpl length. simpl in Hcount. rewrite Hcount.
    vm_compute. reflexivity.
Defined.

(** The claim of C1 about the values as they stand in the rows does not
    hold.  In the run over [blank_rows], line 3 has [EDGE] for the first
    time and is rejected as not unique (its value is [edge], as in line 2);
    line 4 has the empty name for the first time and is rejected as too
    short; line 5 has it again and is rejected as too short as well, not as
    a repeat.  One record is about uniqueness, while the occurrences beyond
    the first add up to two for the names as written. *)
Lemma first_occurrence_of_written_name_fails :
  let o := run elements BaseCluster (session blank_rows) unique_seen in
  let at_line (n : nat) :=
    filter (λ r, line_of r = Some n /\ column_of r = Some "cluster_name") (log o) in
  let written := ["edge"; "EDGE"; ""; ""; ""] in
  at_line 3 = [(ERROR, Line_column_error 3 (cluster "EDGE") "cluster_name"
                         (value_error (Not_unique (Value_is_not_unique "edge")))
                         (InputCell (Some "EDGE")))] /\
  at_line 4 = [(ERROR, Line_column_error 4 cluster_name_unknown "cluster_name"
                         (string_too_short 1) (InputCell (Some "")))] /\
  at_line 5 = [(ERROR, Line_column_error 5 cluster_name_unknown "cluster_name"
                         (string_too_short 1) (InputCell (Some "")))] /\
  length (filter (λ r, is_not_unique r = true) (log o)) = 1 /\
  sum_list_with (λ v, occurrences v written - 1) (remove_dups written) = 2.
Proof. vm_compute. repeat split. Qed.

(** *** From one session to the next *)







(** * Further properties *)

(** ** Strings and lists *)

Lemma white_space_lower_char c :
  Str.white_space (Str.lower_char c) = Str.white_space c.
Proof. by destruct c as [[] [] [] [] [] [] [] []]. Qed.

Lemma lower_char_idem c : Str.lower_char (Str.lower_char c) = Str.lower_char c.
Proof. by destruct c as [[] [] [] [] [] [] [] []]. Qed.

Lemma to_lowercase_idem s : Str.to_lowercase (Str.to_lowercase s) = Str.to_lowercase s.
Proof. induction s as [|c s IH]; simpl; [reflexivity |]. by rewrite lower_char_idem, IH. Qed.

Lemma to_lowercase_nonempty s : s <> "" -> Str.to_lowercase s <> "".
Proof. by destruct s. Qed.

Lemma to_lowercase_first s :
  Str.first (Str.to_lowercase s) = Str.lower_char <$> Str.first s.
Proof. by destruct s. Qed.

Lemma to_lowercase_last s :
  Str.last (Str.to_lowercase s) = Str.lower_char <$> Str.last s.
Proof.
  induction s as [|c s IH]; [reflexivity |].
  simpl. destruct s as [|d s]; [reflexivity |]. exact IH.
Qed.

Lemma to_lowercase_trimmed s :
  Str.trimmed Str.white_space s -> Str.trimmed Str.white_space (Str.to_lowercase s).
Proof.
  intros [Hf Hl]. split; intros c.
  - rewrite to_lowercase_first. destruct (Str.first s) as [d |]; [| discriminate].
    intros [= <-]. rewrite white_space_lower_char. by apply Hf.
  - rewrite to_lowercase_last. destruct (Str.last s) as [d |]; [| discriminate].
    intros [= <-]. rewrite white_space_lower_char. by apply Hl.
Qed.

Lemma lstrip_id sp s :
  (forall c, Str.first s = Some c -> sp c = false) -> Str.lstrip sp s = s.
Proof.
  destruct s as [|c s]; [reflexivity |]. simpl. intros H. by rewrite H.
Qed.

Lemma rstrip_id sp s :
  (forall c, Str.last s = Some c -> sp c = false) -> Str.rstrip sp s = s.
Proof.
  induction s as [|c s IH]; [reflexivity |]. intros H. simpl.
  destruct s as [|d s].
  - simpl. by rewrite H.
  - rewrite IH by exact H. reflexivity.
Qed.

(** A string without white space at its ends is left as it is. *)
Lemma strip_with_id sp s : Str.trimmed sp s -> Str.strip_with sp s = s.
Proof.
  intros [Hf Hl]. unfold Str.strip_with. rewrite lstrip_id by exact Hf.
  by apply rstrip_id.
Qed.

Lemma strip_with_idem sp s :
  Str.strip_with sp (Str.strip_with sp s) = Str.strip_with sp s.
Proof. apply strip_with_id, strip_with_trimmed. Qed.

Lemma split_not_nil sep s : Str.split sep s <> [].
Proof.
  destruct s as [|c s]; simpl; [discriminate |].
  destruct (Ascii.eqb c sep); [discriminate |].
  destruct (Str.split sep s); discriminate.
Qed.

Lemma split_pieces sep s piece :
  piece ∈ Str.split sep s -> contains sep piece = false.
Proof.
  revert piece. induction s as [|c s IH]; intros piece; simpl.
  - intros ->%list_elem_of_singleton. reflexivity.
  - destruct (Ascii.eqb c sep) eqn:Hc.
    + intros [-> | Hin]%elem_of_cons; [reflexivity | by apply IH].
    + destruct (Str.split sep s) as [|w ws] eqn:Hsp; [by apply split_not_nil in Hsp |].
      intros [-> | Hin]%elem_of_cons.
      * simpl. rewrite Hc. apply IH. left.
      * apply IH. by right.
Qed.

Lemma contains_lstrip c sp s :
  contains c s = false -> contains c (Str.lstrip sp s) = false.
Proof.
  induction s as [|a s IH]; simpl; [done |].
  intros [Ha Hs]%orb_false_elim. destruct (sp a); [by apply IH |].
  simpl. by rewrite Ha, Hs.
Qed.

Lemma contains_rstrip c sp s :
  contains c s = false -> contains c (Str.rstrip sp s) = false.
Proof.
  induction s as [|a s IH]; simpl; [done |].
  intros [Ha Hs]%orb_false_elim. specialize (IH Hs).
  destruct (Str.rstrip sp s) as [|b r].
  - destruct (sp a); simpl; [reflexivity | by rewrite Ha].
  - simpl in *. by rewrite Ha, IH.
Qed.

Lemma contains_strip c sp s :
  contains c s = false -> contains c (Str.strip_with sp s) = false.
Proof. intros H. by apply contains_rstrip, contains_lstrip. Qed.

Lemma split_no_sep sep x : contains sep x = false -> Str.split sep x = [x].
Proof.
  induction x as [|a x IH]; simpl; [reflexivity |].
  intros [Ha Hx]%orb_false_elim. by rewrite Ha, IH.
Qed.

Lemma split_app sep x rest :
  contains sep x = false ->
  Str.split sep (x ++ String sep rest) = x :: Str.split sep rest.
Proof.
  induction x as [|a x IH]; simpl.
  - intros _. by rewrite Ascii.eqb_refl.
  - intros [Ha Hx]%orb_false_elim. by rewrite Ha, IH.
Qed.

(** Splitting what [join] built gives the pieces back. *)
Lemma split_join sep (l : list string) :
  l <> [] -> (forall x, x ∈ l -> contains sep x = false) ->
  Str.split sep (Str.join (String sep EmptyString) l) = l.
Proof.
  induction l as [|x l IH]; [done |]. intros _ Hl.
  destruct l as [|y l].
  - simpl. apply split_no_sep, Hl. left.
  - change (Str.join (String sep "") (x :: y :: l))
      with (x ++ String sep (Str.join (String sep "") (y :: l))).
    rewrite split_app by (apply Hl; left). f_equal.
    apply IH; [discriminate |]. intros z Hz. apply Hl. by right.
Qed.

Lemma join_truthy sep x l : x <> "" -> Str.truthy (Str.join sep (x :: l)) = true.
Proof.
  intros Hx. destruct x as [|c x]; [done |]. by destruct l.
Qed.

Lemma split_app_sep sep a b :
  Str.split sep (a ++ String sep b) = (Str.split sep a ++ Str.split sep b)%list.
Proof.
  induction a as [|c a IH]; simpl.
  - by rewrite Ascii.eqb_refl.
  - destruct (Ascii.eqb c sep); [by rewrite IH |].
    rewrite IH. destruct (Str.split sep a) as [|w ws] eqn:Hsp;
      [by apply split_not_nil in Hsp | reflexivity].
Qed.

Lemma contains_pieces c sep s :
  c <> sep ->
  (forall piece, piece ∈ Str.split sep s -> contains c piece = false) ->
  contains c s = false.
Proof.
  intros Hc. induction s as [|d s IH]; intros Hp; [reflexivity |].
  simpl in *. destruct (Ascii.eqb_spec d sep) as [-> | Hd].
  - rewrite IH by (intros piece Hin; apply Hp; by right).
    rewrite orb_false_r. by apply Ascii.eqb_neq.
  - destruct (Str.split sep s) as [|w ws] eqn:Hsp; [by apply split_not_nil in Hsp |].
    assert (Hw := Hp (String d w) ltac:(left)). simpl in Hw.
    apply orb_false_elim in Hw as [Hdc Hw]. rewrite Hdc. simpl.
    apply IH. intros piece [-> | Hin]%elem_of_cons; [exact Hw |].
    apply Hp. by right.
Qed.

Lemma all_digits_contains c s :
  Str.all_digits s = true -> Str.is_digit c = false -> contains c s = false.
Proof.
  intros Hs Hc. induction s as [|d s IH]; [reflexivity |].
  simpl in *. apply andb_true_iff in Hs as [Hd Hs].
  rewrite IH by exact Hs. rewrite orb_false_r.
  destruct (Ascii.eqb_spec d c) as [-> |]; [congruence | reflexivity].
Qed.

Lemma isascii_isdigit_contains c s :
  Str.isascii_isdigit s = true -> Str.is_digit c = false -> contains c s = false.
Proof. destruct s; [discriminate | apply all_digits_contains]. Qed.

Lemma filter_all {A : Type} (P : A -> Prop) `{!forall x, Decision (P x)} (l : list A) :
  (forall x, x ∈ l -> P x) -> filter P l = l.
Proof.
  induction l as [|a l IH]; intros Hl; [reflexivity |].
  rewrite filter_cons_True by (apply Hl; left). f_equal.
  apply IH. intros x Hx. apply Hl. by right.
Qed.

Lemma filter_nil_inv {A : Type} (P : A -> Prop) `{!forall x, Decision (P x)} (l : list A) :
  filter P l = [] -> forall x, x ∈ l -> ~ P x.
Proof.
  intros Hnil x Hx HP.
  assert (Hin : x ∈ filter P l) by (by apply list_elem_of_filter).
  rewrite Hnil in Hin. by apply elem_of_nil in Hin.
Qed.

Lemma filter_sublist {A : Type} (P Q : A -> Prop) `{!forall x, Decision (P x)}
  `{!forall x, Decision (Q x)} (l : list A) :
  (forall x, P x -> Q x) -> filter P l `sublist_of` filter Q l.
Proof.
  intros HPQ. induction l as [|a l IH]; [done |].
  rewrite !filter_cons.
  destruct (decide (P a)) as [HP | HP], (decide (Q a)) as [HQ | HQ].
  - by constructor.
  - destruct HQ. by apply HPQ.
  - by constructor.
  - exact IH.
Qed.

Lemma list_to_set_order (order : SetOrder) (X : gset string) :
  order X ≡ₚ elements X -> list_to_set (order X) = X.
Proof.
  intros Hperm. apply set_eq. intros x.
  by rewrite elem_of_list_to_set, Hperm, elem_of_elements.
Qed.

(** ** The field types of model.py *)

(** X1: a name [ClusterName] accepts is the cell, stripped and then put in
    lower case; the stripped cell has 1 to 30 characters; the name is not
    empty, has no white space at its ends and is in lower case; it was not
    among the names seen, and it is among them afterwards. *)
Theorem ClusterName_accepted (value : Cell) (seen seen' : Seen) (v : string) :
  ClusterName value seen = (Return (VStr v), seen') ->
  (exists s, value = Some s /\ v = Str.to_lowercase (Str.trim s) /\
             1 <= String.length (Str.trim s) <= 30) /\
  v <> "" /\
  Str.trimmed Str.white_space v /\
  Str.to_lowercase v = v /\
  (v ∉ seen) /\ seen' = {[v]} ∪ seen.
Proof.
  intros HCN. pose proof (ClusterName_result value seen) as Hr.
  destruct (str_schema ClusterName_constraints value) as [v0 | e] eqn:Hs;
    [| rewrite Hr in HCN; discriminate].
  destruct (decide (v0 ∈ seen)) as [Hin | Hnin];
    rewrite Hr in HCN; [discriminate |].
  injection HCN as <- <-.
  unfold str_schema in Hs. destruct value as [s |]; [| discriminate].
  simpl in Hs.
  destruct (String.length (Str.trim s) <? 1)%nat eqn:Hmin; [discriminate |].
  destruct (30 <? String.length (Str.trim s))%nat eqn:Hmax; [discriminate |].
  injection Hs as <-.
  apply Nat.ltb_ge in Hmin, Hmax.
  split; [exists s; repeat split; lia |].
  split.
  { apply to_lowercase_nonempty. intros Hempty. rewrite Hempty in Hmin.
    simpl in Hmin. lia. }
  split; [apply to_lowercase_trimmed, strip_with_trimmed |].
  split; [apply to_lowercase_idem |]. done.
Qed.

Lemma ClusterName_accepted_witness :
  exists s, Some "  Edge-1 " = Some s /\ "edge-1" = Str.to_lowercase (Str.trim s) /\
            1 <= String.length (Str.trim s) <= 30.
Proof.
  refine (proj1 (ClusterName_accepted (Some "  Edge-1 ") ∅ {["edge-1"]} "edge-1" _)).
  reflexivity.
Defined.

(** X2: validating an accepted name again gives the same name, when the
    name has at most 30 characters.  (The length of a cell is checked
    before it is put in lower case.) *)
Theorem ClusterName_idempotent (value : Cell) (v : string) :
  str_schema ClusterName_constraints value = Return v ->
  String.length v <= 30 ->
  str_schema ClusterName_constraints (Some v) = Return v /\
  forall seen : Seen,
    v ∉ seen -> ClusterName (Some v) seen = (Return (VStr v), {[v]} ∪ seen).
Proof.
  intros Hs Hlen.
  assert (Hv : str_schema ClusterName_constraints (Some v) = Return v).
  { unfold str_schema in *. destruct value as [s |]; [| discriminate].
    simpl in *.
    destruct (String.length (Str.trim s) <? 1)%nat eqn:Hmin; [discriminate |].
    destruct (30 <? String.length (Str.trim s))%nat eqn:Hmax; [discriminate |].
    injection Hs as <-.
    assert (Htrim : Str.trim (Str.to_lowercase (Str.trim s))
                    = Str.to_lowercase (Str.trim s))
      by apply strip_with_id, to_lowercase_trimmed, strip_with_trimmed.
    rewrite Htrim, to_lowercase_idem.
    assert (Hmin' : (String.length (Str.to_lowercase (Str.trim s)) <? 1)%nat = false).
    { apply Nat.ltb_ge in Hmin. apply Nat.ltb_ge.
      destruct (Str.trim s); simpl in *; lia. }
    assert (Hmax' : (30 <? String.length (Str.to_lowercase (Str.trim s)))%nat = false)
      by (apply Nat.ltb_ge; exact Hlen).
    by rewrite Hmin', Hmax'. }
  split; [exact Hv |]. intros seen Hnin.
  pose proof (ClusterName_result (Some v) seen) as Hr.
  rewrite Hv in Hr. by rewrite decide_False in Hr.
Qed.

Lemma ClusterName_idempotent_witness :
  str_schema ClusterName_constraints (Some "edge-1") = Return "edge-1".
Proof.
  refine (proj1 (ClusterName_idempotent (Some "  Edge-1 ") "edge-1" _ _)).
  - reflexivity.
  - simpl. lia.
Defined.

(** X3: [OptionalStrippedStr] rejects no cell.  It gives [None] for a
    missing cell and for the empty one only; any other cell gives its
    stripped text, which has no white space at its ends and is the empty
    string for a cell of white space.  Validating the stripped text again
    gives it back, except that the empty string becomes [None]. *)
Theorem OptionalStrippedStr_total (value : Cell) :
  exists v,
    OptionalStrippedStr value = Return v /\
    (v = VNone <-> value = None \/ value = Some "") /\
    (forall s, value = Some s -> s <> "" ->
       v = VStr (Str.trim s) /\
       Str.trimmed Str.white_space (Str.trim s) /\
       OptionalStrippedStr (Some (Str.trim s))
         = Return (if Str.truthy (Str.trim s) then VStr (Str.trim s) else VNone)).
Proof.
  destruct value as [[|c s] |].
  - exists VNone. split; [reflexivity |]. split.
    + split; [by right | reflexivity].
    + intros s [= <-] Hs. by destruct Hs.
  - exists (VStr (Str.trim (String c s))). split; [reflexivity |]. split.
    + split; [discriminate | intros [? | ?]; discriminate].
    + intros ? [= <-] _. split; [reflexivity |].
      split; [apply strip_with_trimmed |].
      unfold OptionalStrippedStr. simpl mbind.
      destruct (Str.trim (String c s)) as [|d t] eqn:Ht; [reflexivity |].
      simpl. rewrite <- Ht. unfold Str.trim. by rewrite strip_with_idem.
  - exists VNone. split; [reflexivity |]. split.
    + split; [by left | reflexivity].
    + discriminate.
Qed.

(** The members of the set [ClusterTags] gives. *)
Lemma ClusterTags_members (value : Cell) (X : gset string) :
  ClusterTags value = Return (VSet X) ->
  X <> ∅ /\
  forall e, e ∈ X -> Str.trimmed Str.py_isspace e /\ contains ","%char e = false.
Proof.
  unfold ClusterTags. destruct value as [s |]; simpl; [| discriminate].
  destruct (coerce_splt_commas_rtn_set_strs s) as [Y |] eqn:Hc; [| discriminate].
  destruct (decide (Y = ∅)) as [| Hne]; [discriminate |]. intros [= <-].
  split; [exact Hne |]. intros e He.
  destruct (coerce_splt_commas_members s Y e Hc He) as (Htrim & piece & Hp & _ & ->).
  split; [exact Htrim |]. by apply contains_strip, (split_pieces _ s).
Qed.

Lemma ClusterTags_not_str (value : Cell) (s : string) :
  ClusterTags value <> Return (VStr s).
Proof.
  unfold ClusterTags.
  destruct (value ≫= coerce_splt_commas_rtn_set_strs) as [Y |]; [| discriminate].
  by destruct (decide (Y = ∅)).
Qed.

Lemma ClusterTags_set (s : string) :
  ClusterTags (Some s)
    = if decide (list_to_set (split_strip s) = (∅ : gset string)) then Return VNone
      else Return (VSet (list_to_set (split_strip s))).
Proof. by destruct s. Qed.

(** X4: [ClusterTags] rejects no cell, and what it gives is fixed by the
    pieces of the cell between commas.  It gives [None] exactly when the
    cell is missing or has no piece that is not empty.  Otherwise it gives a
    set: the set is not empty, its members are exactly the pieces that are
    not empty, each stripped, and they have no white space at their ends
    and no comma.  It never gives a plain string. *)
Theorem ClusterTags_total (value : Cell) :
  exists v,
    ClusterTags value = Return v /\
    (v = VNone <->
     forall s piece, value = Some s -> piece ∈ Str.split "," s -> piece = "") /\
    (forall X, v = VSet X ->
       X <> ∅ /\
       (forall e, e ∈ X <->
          exists s piece, value = Some s /\ piece ∈ Str.split "," s /\
                          piece <> "" /\ e = Str.strip piece) /\
       (forall e, e ∈ X ->
          Str.trimmed Str.py_isspace e /\ contains ","%char e = false)) /\
    (forall s, v <> VStr s).
Proof.
  destruct value as [s |].
  2:{ exists VNone. split; [reflexivity |]. split; [| split; discriminate].
      split; [discriminate | reflexivity]. }
  rewrite ClusterTags_set.
  assert (Hmem : forall e, e ∈ (list_to_set (split_strip s) : gset string) <->
            exists s' piece, Some s = Some s' /\ piece ∈ Str.split "," s' /\
                             piece <> "" /\ e = Str.strip piece).
  { intros e. rewrite elem_of_list_to_set. unfold split_strip.
    rewrite list_elem_of_fmap. split.
    - intros (piece & -> & [Ht Hp]%list_elem_of_filter).
      exists s, piece. repeat split; [exact Hp |]. by intros ->.
    - intros (s' & piece & [= <-] & Hp & Hne & ->). exists piece.
      split; [reflexivity |]. apply list_elem_of_filter. split; [| exact Hp].
      by destruct piece. }
  destruct (decide (list_to_set (split_strip s) = (∅ : gset string))) as [Hempty | Hne].
  - exists VNone. split; [reflexivity |]. split; [| split; discriminate].
    split; [| reflexivity]. intros _ s' piece [= <-] Hp.
    destruct piece as [|c p]; [reflexivity |]. exfalso.
    assert (Hin : Str.strip (String c p) ∈ (list_to_set (split_strip s) : gset string)).
    { apply Hmem. exists s, (String c p). by repeat split. }
    rewrite Hempty in Hin. by apply not_elem_of_empty in Hin.
  - exists (VSet (list_to_set (split_strip s))). split; [reflexivity |].
    split; [| split; [| discriminate]].
    + split; [discriminate |]. intros Hall. exfalso. apply Hne.
      apply set_eq. intros e. rewrite Hmem. split; [| by intros ?%not_elem_of_empty].
      intros (s' & piece & [= <-] & Hp & Hpne & _). by destruct Hpne, (Hall s piece).
    + intros X [= <-]. split; [exact Hne |]. split; [exact Hmem |].
      apply (ClusterTags_members (Some s)). rewrite ClusterTags_set.
      by rewrite decide_False.
Qed.

(** X5: what the serializer of [cluster_tags] writes is read back as the
    same value, for a value that does not hold the empty string. *)
Theorem ClusterTags_round_trip (order : SetOrder) (value : Cell) (v : Value) :
  (forall Y, order Y ≡ₚ elements Y) ->
  ClusterTags value = Return v ->
  (forall X, v = VSet X -> "" ∉ X) ->
  exists s,
    field_serializer dump_set_of_vals order v = VStr s /\
    ClusterTags (Some s) = Return v.
Proof.
  intros Horder Hv Hblank.
  destruct v as [s | | X];
    [by apply ClusterTags_not_str in Hv | by exists "" |].
  destruct (ClusterTags_members value X Hv) as [Hne Hmem].
  specialize (Hblank X eq_refl).
  exists (Str.join "," (order X)). split.
  { simpl. unfold dump_set_of_vals. by rewrite decide_False. }
  assert (Hin : forall e, e ∈ order X -> e ∈ X)
    by (intros e; by rewrite Horder, elem_of_elements).
  assert (Hnil : order X <> []).
  { intros Hnil. apply Hne. rewrite <- (list_to_set_order order X (Horder X)).
    by rewrite Hnil. }
  assert (Hsplit : split_strip (Str.join "," (order X)) = order X).
  { unfold split_strip.
    rewrite split_join; [| exact Hnil | intros x Hx; by apply Hmem, Hin].
    rewrite filter_all.
    - rewrite <- (list_fmap_id (order X)) at 2. apply list_fmap_ext.
      intros i e He. apply strip_with_id, Hmem, Hin.
      eapply list_elem_of_lookup_2, He.
    - intros e He. destruct e; [| reflexivity].
      by apply Hin in He. }
  unfold ClusterTags, coerce_splt_commas_rtn_set_strs. simpl.
  destruct (order X) as [|x l] eqn:Ho; [done |].
  rewrite join_truthy.
  2:{ intros ->. apply Hblank, Hin. left. }
  rewrite Hsplit, <- Ho, (list_to_set_order order X (Horder X)).
  by rewrite decide_False.
Qed.

Lemma ClusterTags_round_trip_witness :
  exists s,
    field_serializer dump_set_of_vals elements (VSet {["a"; "b"]}) = VStr s /\
    ClusterTags (Some s) = Return (VSet {["a"; "b"]}).
Proof.
  apply (ClusterTags_round_trip elements (Some " a, b ,,a") (VSet {["a"; "b"]})).
  - reflexivity.
  - reflexivity.
  - intros X [= <-]. by_evaluation.
Defined.

Lemma split_strip_app a b :
  list_to_set (split_strip (a ++ String "," b))
    =@{gset string} list_to_set (split_strip a) ∪ list_to_set (split_strip b).
Proof.
  unfold split_strip.
  by rewrite split_app_sep, filter_app, fmap_app, list_to_set_app_L.
Qed.

(** X6: the tags of a cell are a set: writing them in another order, or
    writing them twice, gives the same value. *)
Theorem tags_order_does_not_matter (a b : string) :
  ClusterTags (Some (a ++ "," ++ b)) = ClusterTags (Some (b ++ "," ++ a)) /\
  ClusterTags (Some (a ++ "," ++ a)) = ClusterTags (Some a).
Proof.
  change (?x ++ "," ++ ?y) with (x ++ String "," y).
  rewrite !ClusterTags_set, !split_strip_app.
  split; [by rewrite (comm_L (∪)) | by rewrite union_idemp_L].
Qed.

(** ** Addresses *)

Lemma from_octets_digits acc octets n o :
  ipaddress.from_octets acc octets = Return n -> o ∈ octets ->
  Str.isascii_isdigit o = true.
Proof.
  revert acc. induction octets as [|o' octets IH]; intros acc Hn Ho.
  - by apply elem_of_nil in Ho.
  - simpl in Hn. destruct (ipaddress._parse_octet o') as [k | e] eqn:Hk;
      [| discriminate].
    apply elem_of_cons in Ho as [-> | Ho]; [| by eapply IH].
    unfold ipaddress._parse_octet in Hk.
    destruct (Str.truthy o'); [| discriminate]. simpl in Hk.
    by destruct (Str.isascii_isdigit o').
Qed.

Lemma _ip_int_from_string_no_slash a n :
  ipaddress._ip_int_from_string a = Return n -> contains "/"%char a = false.
Proof.
  unfold ipaddress._ip_int_from_string.
  destruct (Str.truthy a); [| discriminate]. simpl.
  destruct (length (Str.split "." a) =? 4)%nat; [| discriminate]. simpl.
  destruct (ipaddress.from_octets 0 (Str.split "." a)) as [m | e] eqn:Hm;
    [| discriminate].
  intros _. apply (contains_pieces _ "."%char); [discriminate |].
  intros piece Hin. apply isascii_isdigit_contains; [| reflexivity].
  by eapply from_octets_digits.
Qed.

(** X7: the host bits of an address are not checked: a dotted address
    followed by a slash and a prefix length that
    [_prefix_from_prefix_string] accepts (decimal digits, no more of them
    than [int] converts, with a value from 0 to 32) is accepted, and
    returned as it was written. *)
Theorem validate_cidr_accepts_host_bits (a p : string) (n m : Z) :
  ipaddress._ip_int_from_string a = Return n ->
  ipaddress._prefix_from_prefix_string p = Return m ->
  validate_cidr (a ++ "/" ++ p) = Return (a ++ "/" ++ p).
Proof.
  intros Ha Hp.
  assert (Hslash_a := _ip_int_from_string_no_slash a n Ha).
  assert (Hslash_p : contains "/"%char p = false).
  { unfold ipaddress._prefix_from_prefix_string in Hp.
    destruct (Str.isascii_isdigit p) eqn:Hd; [| discriminate].
    by apply isascii_isdigit_contains. }
  unfold validate_cidr, validate_ipv4_address, ipaddress.IPv4Network,
    ipaddress._split_addr_prefix.
  replace (Str.truthy (a ++ "/" ++ p)) with true by (by destruct a).
  simpl negb. cbv iota. simpl andb.
  change (a ++ "/" ++ p) with (a ++ String "/" p).
  rewrite split_app_sep, (split_no_sep _ a Hslash_a), (split_no_sep _ p Hslash_p).
  simpl. rewrite Ha. unfold ipaddress._make_netmask. rewrite Hp.
  by rewrite andb_false_r.
Qed.

Lemma validate_cidr_accepts_host_bits_witness :
  validate_cidr "10.1.2.3/8" = Return "10.1.2.3/8".
Proof.
  apply (validate_cidr_accepts_host_bits "10.1.2.3" "8" 167838211 8); reflexivity.
Defined.

Lemma _ip_int_from_string_chars a n c :
  ipaddress._ip_int_from_string a = Return n ->
  Str.is_digit c = false -> c <> "."%char -> contains c a = false.
Proof.
  unfold ipaddress._ip_int_from_string.
  destruct (Str.truthy a); [| discriminate]. simpl.
  destruct (length (Str.split "." a) =? 4)%nat; [| discriminate]. simpl.
  destruct (ipaddress.from_octets 0 (Str.split "." a)) as [m | e] eqn:Hm;
    [| discriminate].
  intros _ Hc Hdot. apply (contains_pieces _ "."%char); [exact Hdot |].
  intros piece Hin. apply isascii_isdigit_contains; [| exact Hc].
  by eapply from_octets_digits.
Qed.

Lemma _make_netmask_chars mask r c :
  ipaddress._make_netmask (Some mask) = Return r ->
  Str.is_digit c = false -> c <> "."%char -> contains c mask = false.
Proof.
  unfold ipaddress._make_netmask, ipaddress._prefix_from_prefix_string,
    ipaddress._prefix_from_ip_string.
  intros Hr Hc Hdot.
  destruct (Str.isascii_isdigit mask) eqn:Hd;
    [by apply isascii_isdigit_contains |].
  simpl in Hr.
  destruct (ipaddress._ip_int_from_string mask) as [n | e] eqn:Hn;
    [by eapply _ip_int_from_string_chars | discriminate].
Qed.

(** X8: a value [validate_ipv4_address] accepts as mandatory is made of
    decimal digits, dots and slashes only; so a cell with white space
    around the address is rejected. *)
Theorem validate_cidr_characters (ip r : string) (c : ascii) :
  validate_cidr ip = Return r ->
  Str.is_digit c = false -> c <> "."%char -> c <> "/"%char ->
  contains c ip = false.
Proof.
  unfold validate_cidr, validate_ipv4_address. rewrite andb_false_r.
  unfold ipaddress.IPv4Network, ipaddress._split_addr_prefix.
  intros Hr Hc Hdot Hslash.
  apply (contains_pieces _ "/"%char); [exact Hslash |].
  destruct (Str.split "/" ip) as [|addr [|mask [|x l]]]; [done | | | done].
  - simpl in Hr.
    destruct (ipaddress._ip_int_from_string addr) as [n | e] eqn:Hn;
      [| discriminate].
    intros piece ->%list_elem_of_singleton. by eapply _ip_int_from_string_chars.
  - simpl in Hr.
    destruct (ipaddress._ip_int_from_string addr) as [n | e] eqn:Hn;
      [| discriminate].
    destruct (ipaddress._make_netmask (Some mask)) as [nm | e] eqn:Hm;
      [| discriminate].
    intros piece [-> | ->%list_elem_of_singleton]%elem_of_cons.
    + by eapply _ip_int_from_string_chars.
    + by eapply _make_netmask_chars.
Qed.

Lemma validate_cidr_characters_witness :
  contains " "%char "10.0.0.0/255.0.0.0" = false.
Proof.
  apply (validate_cidr_characters "10.0.0.0/255.0.0.0" "10.0.0.0/255.0.0.0" " ");
    [reflexivity | reflexivity | discriminate | discriminate].
Defined.

(** ** Rows *)

(** What [_validate_csv_row] returns, when it returns: either an object and
    nothing logged, or no object and a log of errors that is not empty. *)
Lemma _validate_csv_row_returns {St : Type} (model : Model St) line_num row st
  clus row_error log1 st' :
  _validate_csv_row model line_num row st = (Return (clus, row_error), log1, st') ->
  if row_error
  then clus = None /\ log1 <> [] /\ Forall (λ r, r.1 = ERROR) log1
  else (exists obj, clus = Some obj) /\ log1 = [].
Proof.
  unfold _validate_csv_row, model_call.
  destruct (csv.restkey row) as [rest |].
  - destruct (dict_get "cluster_name" (csv.items row)); [| discriminate].
    intros [= <- <- <- <-]. split; [reflexivity |]. split; [discriminate |].
    by repeat constructor.
  - destruct (validate_python model (csv.items row) st) as [[obj | errors] st1] eqn:Hv.
    + intros [= <- <- <- <-]. split; [by exists obj | reflexivity].
    + intros [= <- <- <- <-]. split; [reflexivity |].
      unfold validate_python in Hv.
      destruct (validate_fields (model_fields model) (csv.items row) st)
        as [[errs model_dict] st2].
      destruct (errs ++ validate_extras model (csv.items row))%list as [|e l];
        [discriminate |].
      injection Hv as <- <-. split; [discriminate |].
      apply Forall_forall. by intros r (e' & -> & _)%list_elem_of_fmap.
Qed.


(** The keys of a row the reader builds are the field names. *)
Lemma keys_dict_set {V : Type} (k k' : string) (v : V) (d : list (string * V)) :
  k' ∈ keys (dict_set k v d) <-> k' = k \/ k' ∈ keys d.
Proof.
  unfold keys. induction d as [|[k0 v0] d IH]; simpl.
  - rewrite list_elem_of_singleton, elem_of_nil. tauto.
  - destruct (String.eqb k k0) eqn:Heq; simpl.
    + apply String.eqb_eq in Heq as ->. rewrite !elem_of_cons. tauto.
    + rewrite !elem_of_cons, IH. tauto.
Qed.

Lemma keys_dict_zip (names cells : list string) (d : Dict) (k : string) :
  k ∈ keys (csv.dict_zip names cells d)
  <-> k ∈ keys d \/ k ∈ take (length cells) names.
Proof.
  revert cells d. induction names as [|n names IH]; intros [|c cells] d; simpl;
    rewrite ?elem_of_nil; try tauto.
  rewrite IH, keys_dict_set, elem_of_cons. tauto.
Qed.

Lemma keys_foldl_dict_set (l : list string) (d : Dict) (k : string) :
  k ∈ keys (foldl (λ d key, dict_set key None d) d l) <-> k ∈ keys d \/ k ∈ l.
Proof.
  revert d. induction l as [|x l IH]; intros d; simpl.
  - rewrite elem_of_nil. tauto.
  - rewrite IH, keys_dict_set, elem_of_cons. tauto.
Qed.

Lemma keys_DictReader_next (names cells : list string) (k : string) :
  k ∈ keys (csv.items (csv.DictReader_next names cells)) <-> k ∈ names.
Proof.
  unfold csv.DictReader_next.
  destruct (length names <? length cells)%nat eqn:Hlt; simpl.
  - apply Nat.ltb_lt in Hlt. rewrite keys_dict_zip, take_ge by lia.
    unfold keys. simpl. rewrite elem_of_nil. tauto.
  - rewrite keys_foldl_dict_set, keys_dict_zip.
    rewrite <- (take_drop (length cells) names) at 3. rewrite elem_of_app.
    unfold keys. simpl. rewrite elem_of_nil. tauto.
Qed.

Lemma dict_get_is_Some {V : Type} (k : string) (d : list (string * V)) :
  is_Some (dict_get k d) <-> k ∈ keys d.
Proof.
  unfold keys. induction d as [|[k0 v0] d IH]; simpl.
  - rewrite elem_of_nil. split; [by intros [? ?] | done].
  - destruct (String.eqb k k0) eqn:Heq.
    + apply String.eqb_eq in Heq as ->. split; [left | eauto].
    + apply String.eqb_neq in Heq. rewrite IH, elem_of_cons. tauto.
Qed.

Lemma dict_get_None {V : Type} (k : string) (d : list (string * V)) :
  dict_get k d = None <-> k ∉ keys d.
Proof.
  rewrite <- dict_get_is_Some. destruct (dict_get k d) as [v |].
  - split; [discriminate | intros H; destruct H; eauto].
  - split; [intros _ [? ?]; discriminate | reflexivity].
Qed.

(** X9: what a row [BaseCluster] accepts looks like, and what is written for
    it: the row has no surplus cells and no key but the three fields; its
    name is a string that was not seen, its group a string, and its tags
    are there; nothing is logged; the name is written stripped and in lower
    case, the group as it is, and the tags joined by commas. *)
Theorem BaseCluster_accepted_row (order : SetOrder) (line_num : nat)
  (row : csv.Row) (seen seen' : Seen) (clus : option Instance)
  (log : list LogRecord) :
  _validate_csv_row BaseCluster line_num row seen = (Return (clus, false), log, seen') ->
  csv.restkey row = None /\
  (forall k, k ∈ keys (csv.items row) -> k ∈ base_names) /\
  exists s g tags obj,
    dict_get "cluster_name" (csv.items row) = Some (Some s) /\
    dict_get "cluster_group" (csv.items row) = Some (Some g) /\
    dict_get "cluster_tags" (csv.items row) = Some tags /\
    (Str.to_lowercase (Str.trim s) ∉ seen) /\
    seen' = {[Str.to_lowercase (Str.trim s)]} ∪ seen /\
    log = [] /\ clus = Some obj /\
    model_dump order BaseCluster obj
      = [("cluster_name", VStr (Str.to_lowercase (Str.trim s)));
         ("cluster_group", VStr g);
         ("cluster_tags",
           VStr (dump_set_of_vals order (tags ≫= coerce_splt_commas_rtn_set_strs)))].
Proof.
  intros Hrow.
  destruct (csv.restkey row) as [rest |] eqn:Hrest.
  { rewrite (_validate_csv_row_restkey _ _ _ _ rest Hrest) in Hrow.
    by destruct (dict_get "cluster_name" (csv.items row)). }
  split; [reflexivity |].
  unfold _validate_csv_row, model_call, validate_python in Hrow.
  rewrite Hrest in Hrow. simpl in Hrow.
  destruct (dict_get "cluster_name" (csv.items row)) as [c1 |] eqn:H1.
  2:{ repeat case_match; simplify_eq. }
  pose proof (ClusterName_result c1 seen) as HCN.
  destruct (ClusterName c1 seen) as [[v1 | e1] seen1] eqn:HC.
  2:{ destruct (str_schema ClusterName_constraints c1) as [v | e];
        [destruct (decide (v ∈ seen)) |]; simplify_eq;
        repeat case_match; simplify_eq. }
  destruct (dict_get "cluster_group" (csv.items row)) as [[g |] |] eqn:H2;
    simpl in Hrow.
  2,3: repeat case_match; simplify_eq.
  destruct (dict_get "cluster_tags" (csv.items row)) as [tags |] eqn:H3;
    simpl in Hrow.
  2:{ repeat case_match; simplify_eq. }
  destruct (ClusterTags_accepts tags) as [v3 HT]. rewrite HT in Hrow.
  simpl in Hrow.
  destruct (validate_extras BaseCluster (csv.items row)) as [|x xs] eqn:Hx;
    [| discriminate].
  injection Hrow as <- <- <-.
  split.
  { intros k Hk. unfold validate_extras in Hx. simpl in Hx.
    apply fmap_nil_inv in Hx.
    apply list_elem_of_fmap in Hk as ([k' c] & -> & Hk).
    pose proof (filter_nil_inv _ _ Hx _ Hk) as Hnot. simpl in Hnot.
    unfold has_key in Hnot. destruct (decide (k' ∈ base_names)); [done |].
    exfalso. apply Hnot. by rewrite bool_decide_eq_false_2. }
  destruct (str_schema ClusterName_constraints c1) as [v | e] eqn:Hs;
    [| simplify_eq].
  destruct (decide (v ∈ seen)); simplify_eq.
  destruct c1 as [s |]; [| discriminate].
  assert (v = Str.to_lowercase (Str.trim s)) as ->.
  { unfold str_schema in Hs. simpl in Hs. repeat case_match; by simplify_eq. }
  exists s, g, tags. eexists. repeat (split; [done |]).
  simpl. repeat f_equal.
  unfold ClusterTags in HT.
  destruct (tags ≫= coerce_splt_commas_rtn_set_strs) as [X |]; simpl.
  - destruct (decide (X = ∅)); simplify_eq; simpl; unfold dump_set_of_vals.
    + reflexivity.
    + by rewrite decide_False.
  - by simplify_eq.
Qed.

Lemma BaseCluster_accepted_row_witness :
  exists s g tags obj,
    dict_get "cluster_name"
      (csv.items (csv.DictReader_next base_names [" Edge-1"; "us"; "b, a"]))
      = Some (Some s) /\
    dict_get "cluster_group"
      (csv.items (csv.DictReader_next base_names [" Edge-1"; "us"; "b, a"]))
      = Some (Some g) /\
    dict_get "cluster_tags"
      (csv.items (csv.DictReader_next base_names [" Edge-1"; "us"; "b, a"]))
      = Some tags /\
    (Str.to_lowercase (Str.trim s) ∉ (unique_seen : Seen)) /\
    {["edge-1"]} ∪ unique_seen = {[Str.to_lowercase (Str.trim s)]} ∪ unique_seen /\
    ([] : list LogRecord) = [] /\
    Some [("cluster_name", VStr "edge-1"); ("cluster_group", VStr "us");
          ("cluster_tags", VSet {["b"; "a"]})] = Some obj /\
    model_dump elements BaseCluster obj
      = [("cluster_name", VStr (Str.to_lowercase (Str.trim s)));
         ("cluster_group", VStr g);
         ("cluster_tags",
           VStr (dump_set_of_vals elements (tags ≫= coerce_splt_commas_rtn_set_strs)))].
Proof.
  refine (proj2 (proj2 (BaseCluster_accepted_row elements 2
                          (csv.DictReader_next base_names [" Edge-1"; "us"; "b, a"])
                          unique_seen _ _ _ _))).
  reflexivity.
Defined.

(** Whether [BaseCluster] accepts a row that has the three fields as its
    keys and no others depends on the cells of the name and of the group
    only. *)
Lemma BaseCluster_row_result (line_num : nat) (row : csv.Row) (seen : Seen)
  (c1 c2 c3 : Cell) :
  csv.restkey row = None ->
  dict_get "cluster_name" (csv.items row) = Some c1 ->
  dict_get "cluster_group" (csv.items row) = Some c2 ->
  dict_get "cluster_tags" (csv.items row) = Some c3 ->
  validate_extras BaseCluster (csv.items row) = [] ->
  (exists obj log seen',
     _validate_csv_row BaseCluster line_num row seen
       = (Return (Some obj, false), log, seen'))
  <-> (exists v, str_schema ClusterName_constraints c1 = Return v /\ v ∉ seen)
      /\ is_Some c2.
Proof.
  intros Hrest H1 H2 H3 Hx.
  unfold _validate_csv_row, model_call, validate_python. rewrite Hrest.
  cbn [validate_fields model_fields BaseCluster]. rewrite H1, H2, H3, Hx.
  pose proof (ClusterName_result c1 seen) as HCN.
  destruct (ClusterTags_accepts c3) as [vt HT].
  cbn -[ClusterName ClusterTags]. unfold stateless. rewrite HT, plain_str_result.
  destruct (str_schema ClusterName_constraints c1) as [v | e];
    [destruct (decide (v ∈ seen)) |]; rewrite HCN; destruct c2 as [g |]; cbn.
  all: split;
    [intros (obj & log & seen' & Hrow); try discriminate Hrow
    | intros [(v' & Hv & Hnin) Hg]; simplify_eq; try by destruct Hg].
  - split; eauto.
  - eauto.
Qed.

(** X10: which lines the built-in model accepts under its own header: those
    of two or three cells whose first cell, stripped, has 1 to 30
    characters and is, in lower case, not among the names seen.  The
    second and third cell play no part. *)
Theorem base_line_accepted_iff (line_num : nat) (cells : list string)
  (seen : Seen) :
  cells <> [] ->
  (exists obj log seen',
     _validate_csv_row BaseCluster line_num (csv.DictReader_next base_names cells) seen
       = (Return (Some obj, false), log, seen'))
  <-> exists name group rest v,
        cells = name :: group :: rest /\ length rest <= 1 /\
        str_schema ClusterName_constraints (Some name) = Return v /\ v ∉ seen.
Proof.
  intros Hne.
  destruct cells as [|name [|group [|tags [|x rest]]]]; [done | | | |].
  - rewrite (BaseCluster_row_result _ _ _ (Some name) None None);
      try reflexivity.
    split; [by intros [_ [? ?]] | intros (? & ? & ? & ? & [=] & _)].
  - rewrite (BaseCluster_row_result _ _ _ (Some name) (Some group) None);
      try reflexivity.
    split.
    + intros [(v & Hs & Hv) _]. exists name, group, [], v. simpl. auto with lia.
    + intros (? & ? & ? & v & [= <- <- <-] & _ & Hs & Hv). eauto.
  - rewrite (BaseCluster_row_result _ _ _ (Some name) (Some group) (Some tags));
      try reflexivity.
    split.
    + intros [(v & Hs & Hv) _]. exists name, group, [tags], v. simpl. auto with lia.
    + intros (? & ? & ? & v & [= <- <- <-] & _ & Hs & Hv). eauto.
  - split.
    + intros (obj & log & seen' & Hrow). discriminate Hrow.
    + intros (? & ? & ? & ? & [= <- <- <-] & Hlen & _). simpl in Hlen. lia.
Qed.

Lemma base_line_accepted_iff_witness :
  exists obj log seen',
    _validate_csv_row BaseCluster 2 (csv.DictReader_next base_names ["Edge-1"; ""])
      (unique_seen : Seen) = (Return (Some obj, false), log, seen').
Proof.
  apply (base_line_accepted_iff 2 ["Edge-1"; ""] unique_seen); [discriminate |].
  exists "Edge-1", "", [], "edge-1". repeat split; [simpl; lia | by_evaluation].
Defined.

Lemma validate_fields_missing {St : Type} (fields : list (string * FieldInfo St))
  (data : Dict) (st : St) name field :
  (name, field) ∈ fields -> dict_get name data = None -> is_required field = true ->
  {| loc := name; msg := missing; input := InputData data |}
    ∈ (validate_fields fields data st).1.1.
Proof.
  revert st. induction fields as [|[n f] fields IH]; intros st Hin Hget Hreq.
  - by apply elem_of_nil in Hin.
  - simpl. apply elem_of_cons in Hin as [[= <- <-] | Hin].
    + rewrite Hget.
      destruct (validate_fields fields data st) as [[errors model_dict] st2].
      rewrite Hreq. simpl. left.
    + destruct (dict_get n data) as [value |].
      * destruct (validator f value st) as [r st1].
        specialize (IH st1 Hin Hget Hreq).
        destruct (validate_fields fields data st1) as [[errors model_dict] st2].
        destruct r; simpl in *; [exact IH |]. apply elem_of_app. by right.
      * specialize (IH st Hin Hget Hreq).
        destruct (validate_fields fields data st) as [[errors model_dict] st2].
        destruct (is_required f); simpl in *; [by right | exact IH].
Qed.

(** X11: a required field the header check reports as not present is
    reported again on every line without surplus cells, as a missing field
    of that line, and the line is rejected. *)
Theorem missing_column_is_reported_on_every_line {St : Type} (model : Model St)
  (names cells : list string) (name : string) (line_num : nat) (st : St) :
  (ERROR, Required_field_is_not_present name)
    ∈ (missing_fields (model_fields model) names).2 ->
  length cells <= length names ->
  let row := csv.DictReader_next names cells in
  exists log st',
    _validate_csv_row model line_num row st = (Return (None, true), log, st') /\
    (ERROR, Line_column_error line_num (cluster_ref row) name missing
              (InputData (csv.items row))) ∈ log.
Proof.
  intros Hhead Hlen row.
  destruct (missing_fields_spec (model_fields model) names) as [Hlog _].
  rewrite Hlog in Hhead. apply list_elem_of_fmap in Hhead as ([n f] & Heq & Hin).
  apply list_elem_of_filter in Hin as [Hmiss Hin]. simpl in *.
  destruct (is_required f) eqn:Hreq; [| discriminate]. injection Heq as ->.
  assert (Hrest : csv.restkey row = None).
  { unfold row, csv.DictReader_next.
    destruct (length names <? length cells)%nat eqn:Hlt; [| reflexivity].
    apply Nat.ltb_lt in Hlt. lia. }
  assert (Hget : dict_get n (csv.items row) = None).
  { apply dict_get_None. unfold row. by rewrite keys_DictReader_next. }
  pose proof (validate_fields_missing (model_fields model) (csv.items row) st n f
                Hin Hget Hreq) as Herr.
  destruct (_validate_csv_row_errors model line_num row st Hrest)
    as (clus & row_error & Hrow & _ & Hbad).
  destruct Hbad as [-> ->].
  { intros Hnil. apply app_eq_nil in Hnil as [Hnil _]. rewrite Hnil in Herr.
    by apply elem_of_nil in Herr. }
  eexists _, _. split; [exact Hrow |].
  apply list_elem_of_fmap. eexists. split; [| apply elem_of_app; left; exact Herr].
  reflexivity.
Qed.

Lemma missing_column_is_reported_on_every_line_witness :
  exists log st',
    _validate_csv_row BaseCluster 2 (csv.DictReader_next ["cluster_name"] ["edge-1"])
      (unique_seen : Seen) = (Return (None, true), log, st') /\
    (ERROR, Line_column_error 2 (cluster "edge-1") "cluster_group" missing
              (InputData [("cluster_name", Some "edge-1")])) ∈ log.
Proof.
  apply (missing_column_is_reported_on_every_line BaseCluster ["cluster_name"]
           ["edge-1"] "cluster_group" 2 unique_seen).
  - vm_compute. left.
  - simpl. lia.
Defined.

(** ** The run *)

(** A line under a header with a column that is no field of the model is
    not accepted, whatever its cells. *)
Lemma unknown_column_row {St : Type} (model : Model St) names cells k line_num st :
  extra model = forbid -> k ∈ names -> k ∉ keys (model_fields model) ->
  forall obj log st',
    _validate_csv_row model line_num (csv.DictReader_next names cells) st
      <> (Return (Some obj, false), log, st').
Proof.
  intros Hforbid Hk Hfield obj log st'.
  set (row := csv.DictReader_next names cells).
  destruct (csv.restkey row) as [rest |] eqn:Hrest.
  - rewrite (_validate_csv_row_restkey _ _ _ _ rest Hrest).
    by destruct (dict_get "cluster_name" (csv.items row)).
  - destruct (_validate_csv_row_errors model line_num row st Hrest)
      as (clus & row_error & Hrow & _ & Hbad).
    rewrite Hrow. destruct Hbad as [-> ->]; [| discriminate].
    intros Hnil. apply app_eq_nil in Hnil as [_ Hnil].
    unfold validate_extras in Hnil. rewrite Hforbid in Hnil.
    apply fmap_nil_inv in Hnil.
    assert (Hin : k ∈ keys (csv.items row)) by (by apply keys_DictReader_next).
    apply list_elem_of_fmap in Hin as ([k' v] & -> & Hin).
    assert (Hx : (k', v) ∈ extra_items model (csv.items row)).
    { apply list_elem_of_filter. split; [| exact Hin]. simpl.
      unfold has_key. by rewrite bool_decide_eq_false_2. }
    rewrite Hnil in Hx. by apply elem_of_nil in Hx.
Qed.

(** X12: a file whose header has a column that is no field of the model,
    under a model that forbids extra keys, is valid only when the reader
    gives no row for it (blank lines give none): as soon as the reader gives
    one row, or fails on a line, the run does not return 0. *)
Theorem unknown_column_invalidates_the_file {St : Type} (order : SetOrder)
  (builtin : Model St) (inv : Invocation St) (st : St) (reader : Reader)
  (names : list string) (k : string) (model : option (Model St)) :
  (_load_model_dynamic (validator_module inv)).1 = Return model ->
  extra (default builtin model) = forbid ->
  source inv = Some reader ->
  fieldnames reader = fieldnames_list names ->
  k ∈ names -> k ∉ keys (model_fields (default builtin model)) ->
  lines reader <> [] ->
  Forall (λ l, forall row, l.2 = next_row row ->
                 exists cells, row = csv.DictReader_next names cells)
    (lines reader) ->
  exit_code (run order builtin inv st) <> Return 0%Z.
Proof.
  intros Hload Hforbid Hsrc Hnames Hk Hfield Hne Hlines. unfold run.
  destruct (_load_model_dynamic (validator_module inv)) as [[model' | e] log0];
    [| discriminate].
  simpl in Hload. injection Hload as ->. rewrite Hsrc.
  destruct (_validate_csv_fields (default builtin model) (fieldnames reader))
    as [[error | e] log2]; [| by destruct e].
  destruct (lines reader) as [|[n [row | |]] lines] eqn:Hl; [done | | |].
  2,3: by destruct (output inv) as [[|] |].
  apply Forall_cons in Hlines as [Hrow _].
  destruct (Hrow row eq_refl) as [cells ->].
  destruct (output inv) as [[|] |]; [| discriminate |]; simpl;
    pose proof (unknown_column_row (default builtin model) names cells k n st
                  Hforbid Hk Hfield) as Hbad;
    pose proof (_validate_csv_row_returns (default builtin model) n
                  (csv.DictReader_next names cells) st) as Hret;
    destruct (_validate_csv_row (default builtin model) n
                (csv.DictReader_next names cells) st)
      as [[[[clus row_error] | e] log1] st1]; try discriminate;
    specialize (Hret clus row_error log1 st1 eq_refl);
    (destruct row_error;
     [| destruct Hret as [[obj ->] _]; by destruct (Hbad obj log1 st1)]);
    match goal with
    | |- context [row_loop ?o ?m ?w ?e0 ?l true ?s] =>
        pose proof (row_loop_sticky o m w e0 l s) as Hsticky;
        destruct (row_loop o m w e0 l true s) as [[[[[|] | e'] log4] rows] st']
    end; simpl in *; try discriminate; done.
Qed.

Lemma unknown_column_invalidates_the_file_witness :
  exit_code (run elements BaseCluster
               {| validator_module := no_validator_module;
                  source := Some {| fieldnames :=
                                      fieldnames_list (base_names ++ ["site"]);
                                    lines :=
                                      [(2%nat, next_row (csv.DictReader_next
                                                  (base_names ++ ["site"])
                                                  ["edge-1"; "us"; "lab"; "x"]))];
                                    end_line_num := 2 |};
                  output := None |} unique_seen)
    <> Return 0%Z.
Proof.
  eapply (unknown_column_invalidates_the_file elements BaseCluster _ unique_seen
            _ (base_names ++ ["site"]) "site" None).
  - reflexivity.
  - reflexivity.
  - reflexivity.
  - reflexivity.
  - by_evaluation.
  - by_evaluation.
  - discriminate.
  - repeat constructor. intros row [= <-]. eauto.
Defined.

(** X13: the verdict on the header does not change what the loop does with
    the lines: the same records are logged, the same rows written and the
    same state left, and the flag the loop returns is the flag it was
    given or the one the lines alone give. *)
Theorem header_verdict_does_not_stop_the_lines {St : Type} (order : SetOrder)
  (model : Model St) (writer : bool) (end_n : nat) (lines : list (nat * Next))
  (error : bool) (st : St) :
  (row_loop order model writer end_n lines error st).1.1.2
    = (row_loop order model writer end_n lines false st).1.1.2 /\
  (row_loop order model writer end_n lines error st).1.2
    = (row_loop order model writer end_n lines false st).1.2 /\
  (row_loop order model writer end_n lines error st).2
    = (row_loop order model writer end_n lines false st).2 /\
  (row_loop order model writer end_n lines error st).1.1.1
    = match (row_loop order model writer end_n lines false st).1.1.1 with
      | Return b => Return (error || b)
      | Raise e => Raise e
      end.
Proof.
  revert error st. induction lines as [|[n [row | |]] lines IH]; intros error st; simpl.
  - by rewrite orb_false_r.
  - destruct (_validate_csv_row model n row st) as [[[[clus row_error] | e] log1] st1];
      [| done].
    destruct row_error.
    + pose proof (row_loop_sticky order model writer end_n lines st1) as Hsticky.
      destruct (row_loop order model writer end_n lines true st1)
        as [[[[[|] | e] log'] out'] st2]; simpl in *; try done.
      by rewrite orb_true_r.
    + destruct (IH error st1) as (Hlog & Hout & Hst & Hflag).
      destruct (row_loop order model writer end_n lines error st1)
        as [[[r2 log'] out'] st2].
      destruct (row_loop order model writer end_n lines false st1)
        as [[[r0 log0] out0] st0]. simpl in *. by subst.
  - by rewrite orb_true_r.
  - done.
Qed.




Lemma missing_fields_error {St : Type} (fields : list (string * FieldInfo St)) names :
  (missing_fields fields names).1 = true
  <-> Exists (λ r : LogRecord, r.1 = ERROR) (missing_fields fields names).2.
Proof.
  induction fields as [|[name field] fields IH]; simpl.
  - rewrite Exists_nil. split; [discriminate | done].
  - destruct (missing_fields fields names) as [validation_error log1]. simpl in IH.
    destruct (bool_decide (name ∉ names)); [| exact IH].
    destruct (is_required field); simpl; rewrite Exists_cons; simpl.
    + split; [by left | reflexivity].
    + rewrite IH. split; [by right | by intros [? | ?]].
Qed.

Lemma _validate_csv_fields_error {St : Type} (model : Model St) fn :
  match (_validate_csv_fields model fn).1 with
  | Raise (RuntimeError _) =>
      Exists (λ r : LogRecord, r.1 = ERROR) (_validate_csv_fields model fn).2
  | Raise _ => True
  | Return failed =>
      failed = true
      <-> Exists (λ r : LogRecord, r.1 = ERROR) (_validate_csv_fields model fn).2
  end.
Proof.
  destruct fn as [| [|n names] | |]; simpl; try (by left); try exact I.
  pose proof (missing_fields_error (model_fields model) (n :: names)) as H.
  by destruct (missing_fields (model_fields model) (n :: names)).
Qed.

Lemma _load_model_dynamic_error {St : Type} (l : Loaded St) :
  match (_load_model_dynamic l).1 with
  | Raise (RuntimeError _) =>
      Exists (λ r : LogRecord, r.1 = ERROR) (_load_model_dynamic l).2
  | Raise _ => True
  | Return _ => ~ Exists (λ r : LogRecord, r.1 = ERROR) (_load_model_dynamic l).2
  end.
Proof.
  destruct l as [| | | | | []]; simpl; rewrite ?Exists_cons, ?Exists_nil; simpl;
    intuition discriminate.
Qed.

(** The flag the loop returns is set when it was set at the start or the
    loop logged an error. *)
Lemma row_loop_error_flag {St : Type} order (model : Model St) writer end_n
  lines error st error' log out st' :
  row_loop order model writer end_n lines error st = (Return error', log, out, st') ->
  error' = true <-> error = true \/ Exists (λ r : LogRecord, r.1 = ERROR) log.
Proof.
  revert error st error' log out st'.
  induction lines as [|[n [row | |]] lines IH]; intros error st error' log out st'; simpl.
  4: discriminate.
  - intros [= <- <- <- <-]. rewrite Exists_cons, Exists_nil. simpl.
    split; [by left | intros [? | [? | []]]; done].
  - pose proof (_validate_csv_row_returns model n row st) as Hrow.
    destruct (_validate_csv_row model n row st) as [[[[clus row_error] | e] log1] st1];
      [| discriminate].
    specialize (Hrow clus row_error log1 st1 eq_refl).
    destruct (row_loop order model writer end_n lines
                (if row_error then true else error) st1)
      as [[[r2 log'] out'] st2] eqn:Hloop.
    intros [= -> <- <- <-]. apply IH in Hloop. rewrite Hloop.
    rewrite !Exists_app.
    assert (Hprogress : ~ Exists (λ r : LogRecord, r.1 = ERROR)
                          (if (n mod 100 =? 0)%nat then [(INFO, Processed_rows n)] else [])).
    { destruct (n mod 100 =? 0)%nat; rewrite ?Exists_cons, ?Exists_nil; simpl;
        intuition discriminate. }
    destruct row_error.
    + destruct Hrow as (_ & Hne & Hall).
      assert (Exists (λ r : LogRecord, r.1 = ERROR) log1).
      { destruct log1 as [|r l]; [done |]. left. by apply Forall_cons in Hall as [? _]. }
      tauto.
    + destruct Hrow as [_ ->]. rewrite Exists_nil. tauto.
  - intros [= <- <- <- <-]. rewrite Exists_cons. simpl. tauto.
Qed.

(** X15: a run that returns has returned 0 exactly when it has logged
    nothing at the level of an error. *)
Theorem exit_zero_iff_no_error {St : Type} (order : SetOrder)
  (builtin : Model St) (inv : Invocation St) (st : St) (c : Z) :
  exit_code (run order builtin inv st) = Return c ->
  (c = 0 \/ c = 1 \/ c = -1)%Z /\
  (c = 0%Z <-> ~ Exists (λ r : LogRecord, r.1 = ERROR) (log (run order builtin inv st))).
Proof.
  unfold run.
  pose proof (_load_model_dynamic_error (validator_module inv)) as Hload.
  destruct (_load_model_dynamic (validator_module inv)) as [[model | e] log0];
    simpl in Hload.
  2:{ destruct e; simpl; try discriminate.
      intros [= <-]. split; [auto |]. split; [done | tauto]. }
  destruct (source inv) as [reader |].
  2:{ simpl. intros [= <-]. split; [auto |]. split; [done |].
      intros H. exfalso. apply H. rewrite !Exists_app. right. by left. }
  pose proof (_validate_csv_fields_error (default builtin model) (fieldnames reader))
    as Hhead.
  destruct (_validate_csv_fields (default builtin model) (fieldnames reader))
    as [[error | e] log2]; simpl in Hhead.
  2:{ destruct e; simpl; try discriminate.
      intros [= <-]. split; [auto |]. split; [done |].
      intros H. exfalso. apply H. rewrite !Exists_app. tauto. }
  destruct (output inv) as [[|] |].
  2:{ simpl. intros [= <-]. split; [auto |]. split; [done |].
      intros H. exfalso. apply H. rewrite !Exists_app, !Exists_cons. simpl. tauto. }
  all: match goal with
       | |- context [row_loop ?o ?m ?w ?n ?l ?e ?s] =>
           pose proof (row_loop_error_flag o m w n l e s) as Hloop;
           destruct (row_loop o m w n l e s) as [[[[[|] | e'] log4] rows] st']
       end;
    simpl; intros [= <-]; (split; [auto |]);
    specialize (Hloop _ _ _ _ eq_refl);
    repeat (first [rewrite Exists_app | rewrite Exists_cons | rewrite Exists_nil]);
    simpl.
  all: split; [intros Hc; try discriminate Hc | intros Hno; try reflexivity].
  all: try (exfalso; apply Hno; destruct Hloop as [Hl _];
            destruct (Hl eq_refl) as [Herr | Hlog];
            [apply Hhead in Herr |]; tauto).
  all: try (intros H; destruct Hloop as [_ Hr];
    assert (error = true -> False) by (intros ->; discriminate Hr; by left);
    assert (~ Exists (λ r : LogRecord, r.1 = ERROR) log4)
      by (intros ?; discriminate Hr; by right);
    intuition discriminate).
Qed.

Lemma exit_zero_iff_no_error_witness :
  ~ Exists (λ r : LogRecord, r.1 = ERROR)
      (log (run elements BaseCluster
              (session [(2%nat, csv.DictReader_next base_names ["edge-1"; "us"; "lab"])])
              unique_seen)).
Proof.
  apply (proj1 (proj2 (exit_zero_iff_no_error elements BaseCluster
                         (session [(2%nat, csv.DictReader_next base_names
                                             ["edge-1"; "us"; "lab"])])
                         unique_seen 0%Z eq_refl))).
  reflexivity.
Defined.








Lemma validate_fields_keys {St : Type} (fields : list (string * FieldInfo St))
  (data : Dict) (st : St) :
  (forall f value st0, f ∈ fields -> (validator f.2 value st0).1 <> Raise []) ->
  (validate_fields fields data st).1.1 = [] ->
  keys (validate_fields fields data st).1.2 = keys fields.
Proof.
  revert st. induction fields as [|[name field] fields IH]; intros st Hwf; [done |].
  assert (Hwf' : forall f value st0,
             f ∈ fields -> (validator f.2 value st0).1 <> Raise []).
  { intros f value st0 Hf. apply Hwf. by right. }
  simpl. destruct (dict_get name data) as [value |].
  - assert (Hv := Hwf (name, field) value st ltac:(left)). simpl in Hv.
    destruct (validator field value st) as [r st1]. simpl in Hv.
    specialize (IH st1 Hwf').
    destruct (validate_fields fields data st1) as [[errors model_dict] st2].
    destruct r as [v | line_errors]; simpl in *.
    + intros He. unfold keys in *. simpl. f_equal. by apply IH.
    + intros [He _]%app_eq_nil. apply fmap_nil_inv in He. subst line_errors. by destruct Hv.
  - specialize (IH st Hwf').
    destruct (validate_fields fields data st) as [[errors model_dict] st2].
    destruct (is_required field); simpl in *; [discriminate |].
    intros He. unfold keys in *. simpl. f_equal. by apply IH.
Qed.

Lemma keys_model_dump {St : Type} order (m : Model St) (obj : Instance) :
  keys (model_dump order m obj) = keys obj.
Proof.
  unfold keys, model_dump. rewrite <- list_fmap_compose. apply list_fmap_ext.
  intros i [name v] _. simpl.
  by destruct (dict_get name (model_fields m)) as [[? ? ? [f |]] |].
Qed.

Lemma row_loop_rows {St : Type} order (model : Model St) (P : Instance -> Prop)
  writer end_n lines error st :
  (forall n row st0 obj log st',
     _validate_csv_row model n row st0 = (Return (Some obj, false), log, st') ->
     P (model_dump order model obj)) ->
  Forall P (row_loop order model writer end_n lines error st).1.2.
Proof.
  intros HP. revert error st.
  induction lines as [|[n [row | |]] lines IH]; intros error st; simpl;
    [constructor | | constructor | constructor].
  pose proof (HP n row st) as Hrow.
  destruct (_validate_csv_row model n row st) as [[[[clus row_error] | e] log1] st1];
    [| constructor].
  specialize (IH (if row_error then true else error) st1).
  destruct (row_loop order model writer end_n lines
              (if row_error then true else error) st1) as [[[r2 log'] out'] st2].
  simpl in *. apply Forall_app. split; [| exact IH].
  destruct clus as [obj |]; [| constructor].
  destruct row_error; simpl; [constructor |].
  destruct writer; [| constructor]. repeat constructor. by eapply Hrow.
Qed.

(** X18: every row in the output file has the columns of the model, in the
    order of the model, when no validator of the model fails without an
    error to report. *)
Theorem written_rows_have_the_columns_of_the_model {St : Type} (order : SetOrder)
  (builtin : Model St) (inv : Invocation St) (st : St)
  (model : option (Model St)) (rows : list Instance) :
  (_load_model_dynamic (validator_module inv)).1 = Return model ->
  (forall f value st0,
     f ∈ model_fields (default builtin model) ->
     (validator f.2 value st0).1 <> Raise []) ->
  output_file (run order builtin inv st) = Some rows ->
  Forall (λ row, keys row = keys (model_fields (default builtin model))) rows.
Proof.
  intros Hload Hwf. unfold run.
  destruct (_load_model_dynamic (validator_module inv)) as [[model' | e] log0];
    [| discriminate].
  simpl in Hload. injection Hload as ->.
  destruct (source inv) as [reader |]; [| discriminate].
  destruct (_validate_csv_fields (default builtin model) (fieldnames reader))
    as [[error | e] log2]; [| by destruct e].
  assert (Hrows : forall writer,
             Forall (λ row, keys row = keys (model_fields (default builtin model)))
               (row_loop order (default builtin model) writer (end_line_num reader)
                  (lines reader) error st).1.2).
  { intros writer. apply row_loop_rows. intros n row st0 obj log st' Hrow.
    rewrite keys_model_dump.
    unfold _validate_csv_row, model_call in Hrow.
    destruct (csv.restkey row);
      [by destruct (dict_get "cluster_name" (csv.items row)) |].
    unfold validate_python in Hrow.
    pose proof (validate_fields_keys (model_fields (default builtin model))
                  (csv.items row) st0 Hwf) as Hkeys.
    destruct (validate_fields (model_fields (default builtin model))
                (csv.items row) st0) as [[errors model_dict] st1].
    simpl in Hkeys.
    destruct (errors ++ validate_extras (default builtin model) (csv.items row))%list
      as [|e l] eqn:Herr; [| discriminate].
    apply app_eq_nil in Herr as [-> _]. injection Hrow as <- _ _. by apply Hkeys. }
  destruct (output inv) as [[|] |]; [| discriminate |];
    match goal with
    | |- context [row_loop ?o ?m ?w ?n ?l ?e ?s] =>
        specialize (Hrows w);
        destruct (row_loop o m w n l e s) as [[[[[|] | e'] log4] out] st']
    end; simpl in *; try discriminate; by intros [= <-].
Qed.

(** The validators of [BaseCluster] fail with an error to report. *)
Lemma BaseCluster_validators_report f value (seen : Seen) :
  f ∈ model_fields BaseCluster -> (validator f.2 value seen).1 <> Raise [].
Proof.
  intros Hf. simpl in Hf.
  repeat (apply elem_of_cons in Hf as [-> | Hf]); [| | | by apply elem_of_nil in Hf];
    simpl.
  - pose proof (ClusterName_result value seen) as Hr.
    destruct (str_schema ClusterName_constraints value) as [v | e];
      [destruct (decide (v ∈ seen)) |]; by rewrite Hr.
  - rewrite plain_str_result. by destruct value.
  - by destruct (ClusterTags_accepts value) as [v ->].
Qed.

Lemma written_rows_have_the_columns_of_the_model_witness :
  Forall (λ row : Instance, keys row = base_names)
    [[("cluster_name", VStr "edge-1"); ("cluster_group", VStr "us");
      ("cluster_tags", VStr "lab")]].
Proof.
  apply (written_rows_have_the_columns_of_the_model elements BaseCluster
           {| validator_module := no_validator_module;
              source := Some {| fieldnames := fieldnames_list base_names;
                                lines := [(2%nat, next_row (csv.DictReader_next base_names
                                                         [" Edge-1"; "us"; "lab"]))];
                                end_line_num := 2 |};
              output := Some true |} unique_seen None).
  - reflexivity.
  - intros f value st0 Hf. by apply BaseCluster_validators_report.
  - reflexivity.
Defined.

Lemma row_loop_csv_error {St : Type} order (model : Model St) writer end_n
  pre n post error st :
  row_loop order model writer end_n (pre ++ (n, next_csv_Error) :: post) error st
    = row_loop order model writer end_n (pre ++ [(n, next_csv_Error)]) error st /\
  (row_loop order model writer end_n (pre ++ (n, next_csv_Error) :: post) error st).1.1.1
    <> Return false.
Proof.
  revert error st. induction pre as [|[m [row | |]] pre IH]; intros error st; simpl.
  - split; [reflexivity | discriminate].
  - destruct (_validate_csv_row model m row st) as [[[[clus row_error] | e] log1] st1];
      [| split; [reflexivity | discriminate]].
    destruct (IH (if row_error then true else error) st1) as [-> Hne].
    split; [reflexivity |].
    by destruct (row_loop order model writer end_n (pre ++ [(n, next_csv_Error)])
                   (if row_error then true else error) st1) as [[[r2 log'] out'] st2].
  - split; [reflexivity | discriminate].
  - split; [reflexivity | discriminate].
Qed.

(** X19: a [csv.Error] ends the run: the lines after it play no part, and
    the run does not return 0. *)
Theorem csv_error_ends_the_run {St : Type} (order : SetOrder)
  (builtin : Model St) (inv : Invocation St) (st : St) (reader : Reader)
  (pre post : list (nat * Next)) (n : nat) :
  source inv = Some reader ->
  lines reader = (pre ++ (n, next_csv_Error) :: post)%list ->
  exit_code (run order builtin inv st) <> Return 0%Z /\
  run order builtin inv st
    = run order builtin
        {| validator_module := validator_module inv;
           source := Some {| fieldnames := fieldnames reader;
                             lines := (pre ++ [(n, next_csv_Error)])%list;
                             end_line_num := end_line_num reader |};
           output := output inv |} st.
Proof.
  intros Hsrc Hlines. unfold run. simpl. rewrite Hsrc, Hlines.
  destruct (_load_model_dynamic (validator_module inv)) as [[model | e] log0];
    [| destruct e; split; (discriminate || reflexivity)].
  destruct (_validate_csv_fields (default builtin model) (fieldnames reader))
    as [[error | e] log2]; [| destruct e; split; (discriminate || reflexivity)].
  destruct (output inv) as [[|] |]; [| split; [discriminate | reflexivity] |];
    match goal with
    | |- context [row_loop ?o ?m ?w ?e0 (pre ++ (n, next_csv_Error) :: post) ?e ?s] =>
        destruct (row_loop_csv_error o m w e0 pre n post e s) as [-> Hne];
        destruct (row_loop o m w e0 (pre ++ [(n, next_csv_Error)]) e s)
          as [[[[[|] | e'] log4] rows] st']
    end; simpl in *; (split; [discriminate || done | reflexivity]).
Qed.

Lemma csv_error_ends_the_run_witness :
  exit_code (run elements BaseCluster
               {| validator_module := no_validator_module;
                  source := Some {| fieldnames := fieldnames_list base_names;
                                    lines := [(2%nat, next_row (csv.DictReader_next base_names
                                                             ["edge-1"; "us"; "lab"]));
                                              (3%nat, next_csv_Error);
                                              (4%nat, next_row (csv.DictReader_next base_names
                                                             ["edge-2"; "us"; "lab"]))];
                                    end_line_num := 4 |};
                  output := None |} unique_seen)
    <> Return 0%Z.
Proof.
  refine (proj1 (csv_error_ends_the_run elements BaseCluster _ unique_seen _
                   [(2%nat, next_row (csv.DictReader_next base_names
                                        ["edge-1"; "us"; "lab"]))]
                   [(4%nat, next_row (csv.DictReader_next base_names
                                        ["edge-2"; "us"; "lab"]))] 3 _ _));
    reflexivity.
Defined.

(** ** The verbosity *)

(** X20: a higher verbosity never hides a record: what is let through at one
    verbosity is let through at every higher one, in the same order; and
    warnings and errors are let through at every verbosity. *)
Theorem verbosity_never_hides_a_record (v v' : Z) (log : list LogRecord) :
  (v <= v')%Z ->
  emitted v log `sublist_of` emitted v' log /\
  forall r, r ∈ log -> r.1 = WARNING \/ r.1 = ERROR -> r ∈ emitted v log.
Proof.
  intros Hle. split.
  - apply filter_sublist. intros [l msg]. simpl.
    unfold isEnabledFor, setup_logger.
    destruct (Z.eqb_spec v 1), (Z.leb_spec 2 v), (Z.eqb_spec v' 1), (Z.leb_spec 2 v');
      destruct l; simpl; try done; lia.
  - intros [l msg] Hin Hl. apply list_elem_of_filter. split; [| exact Hin].
    simpl in *. unfold isEnabledFor, setup_logger.
    destruct (Z.eqb_spec v 1), (Z.leb_spec 2 v); destruct Hl as [-> | ->]; done.
Qed.

Lemma verbosity_never_hides_a_record_witness :
  emitted 0 (log (run elements BaseCluster (session three_rows) unique_seen))
    `sublist_of`
  emitted 2 (log (run elements BaseCluster (session three_rows) unique_seen)).
Proof.
  apply (verbosity_never_hides_a_record 0 2). lia.
Defined.
